(** * Lumus quiz generation endpoint: a shallow embedding of
      [api/generate-quiz.js] and the properties of its fallback chain.

    The endpoint receives a topic, an API key and a question count, asks
    Gemini for a quiz, falls back to the OpenAI placeholder, then to Hugging
    Face, and finally to a locally generated quiz.

    Modelling conventions.
    - JavaScript strings are [string]s, read as byte sequences (UTF-8).
      [startsWith], [endsWith], [substring] and the brace regular expression
      are applied by the source at ASCII markers only, where bytes and code
      units agree; [trim] removes every white space and line terminator of
      ECMAScript, the ones outside ASCII in their UTF-8 form.
    - JSON values are the inductive [json]; objects are finite maps from
      property names to values.  A number is kept as the exact decimal
      [m * 10^e] its literal denotes (so [1.0] is [JNum 10 (-1)]); the source
      never computes with a parsed number, it only tests one for truthiness
      ([rounds_to_zero]).
    - [JSON.parse] is a recursive-descent parser of the JSON grammar with a
      fuel argument, and [JSON_parse_fuel_enough] shows the fuel it is given
      always suffices.
    - The network, the clock and the console are explicit: a [world] answers
      the fetches of one request, and every computation threads a [trace] of
      the fetches made and the console lines written.
    - Exceptions are values of [exn]; [try_catch] is the source's
      [try { } catch { }]. *)

From Stdlib Require Import QArith Ascii String DecimalString.
From stdpp Require Import gmap strings list fin_maps.

Set Warnings "-register-all".
Open Scope string_scope.
Open Scope Z_scope.

(** ** Characters and strings *)

Module Chars.

Definition dquote : ascii := "034"%char.
Definition backslash : ascii := "\"%char.
Definition newline : ascii := "010"%char.

(** The double quote and the line feed as one-character strings. *)
Definition dq : string := String dquote EmptyString.
Definition nl : string := String newline EmptyString.

Definition is_digit (c : ascii) : bool :=
  let n := nat_of_ascii c in ((48 <=? n) && (n <=? 57))%nat.

Definition digit_val (c : ascii) : Z := Z.of_nat (nat_of_ascii c) - 48.

Definition hex_val (c : ascii) : option Z :=
  let n := Z.of_nat (nat_of_ascii c) in
  if (48 <=? n) && (n <=? 57) then Some (n - 48)
  else if (65 <=? n) && (n <=? 70) then Some (n - 55)
  else if (97 <=? n) && (n <=? 102) then Some (n - 87)
  else None.

(** White space of the JSON grammar: space, tab, line feed, carriage return. *)
Definition is_json_ws (c : ascii) : bool :=
  let n := nat_of_ascii c in
  ((n =? 32) || (n =? 9) || (n =? 10) || (n =? 13))%nat.

(** White space removed by [String.prototype.trim], ASCII part: U+0009 to
    U+000D and the space. *)
Definition is_js_space (c : ascii) : bool :=
  let n := nat_of_ascii c in
  (((9 <=? n) && (n <=? 13)) || (n =? 32))%nat.

(** The white space of [trim] outside ASCII, in UTF-8.  Two bytes: U+00A0.
    Three bytes: U+1680; U+2000 to U+200A, U+2028, U+2029 and U+202F; U+205F;
    U+3000; U+FEFF. *)
Definition is_space2 (a b : ascii) : bool :=
  ((nat_of_ascii a =? 194) && (nat_of_ascii b =? 160))%nat.

Definition is_space3 (a b c : ascii) : bool :=
  let x := nat_of_ascii a in
  let y := nat_of_ascii b in
  let z := nat_of_ascii c in
  (((x =? 225) && (y =? 154) && (z =? 128))
   || ((x =? 226) && (y =? 128)
       && (((128 <=? z) && (z <=? 138)) || (z =? 168) || (z =? 169)
           || (z =? 175)))
   || ((x =? 226) && (y =? 129) && (z =? 159))
   || ((x =? 227) && (y =? 128) && (z =? 128))
   || ((x =? 239) && (y =? 187) && (z =? 191)))%nat.

(** An ASCII character that is not white space. *)
Definition plain (c : ascii) : bool :=
  (nat_of_ascii c <? 128)%nat && negb (is_js_space c).

Definition byte (n : Z) : ascii := ascii_of_nat (Z.to_nat n).

(** UTF-8 bytes of a code unit below 65536 (the value of a [\uXXXX] escape). *)
Definition utf8 (n : Z) : list ascii :=
  if n <? 128 then [byte n]
  else if n <? 2048 then [byte (192 + n / 64); byte (128 + n mod 64)]
  else [byte (224 + n / 4096); byte (128 + (n / 64) mod 64); byte (128 + n mod 64)].

End Chars.
Import Chars.

(** ** String operations of the JavaScript runtime used by the source *)

Module JsString.

Definition chars (s : string) : list ascii := list_ascii_of_string s.
Definition str (l : list ascii) : string := string_of_list_ascii l.

(** The text after the white space characters at its front, a character of
    one byte being recognised by [is_js_space], one of two bytes by [two] and
    one of three bytes by [three]. *)
Fixpoint drop_front (two : ascii -> ascii -> bool)
    (three : ascii -> ascii -> ascii -> bool) (s : list ascii) : list ascii :=
  match s with
  | [] => []
  | a :: r =>
      if is_js_space a then drop_front two three r
      else
        match r with
        | [] => s
        | b :: r2 =>
            if two a b then drop_front two three r2
            else
              match r2 with
              | [] => s
              | c :: r3 => if three a b c then drop_front two three r3 else s
              end
        end
  end.

(** Leading white space removed. *)
Definition drop_spaces (s : list ascii) : list ascii :=
  drop_front is_space2 is_space3 s.

(** Trailing white space removed, of a text given last byte first. *)
Definition drop_spaces_back (s : list ascii) : list ascii :=
  drop_front (fun a b => is_space2 b a) (fun a b c => is_space3 c b a) s.

(** [s.trim()] *)
Definition trim (s : string) : string :=
  str (rev (drop_spaces_back (rev (drop_spaces (chars s))))).

Fixpoint is_prefix (p s : list ascii) : bool :=
  match p, s with
  | [], _ => true
  | a :: p', b :: s' => Ascii.eqb a b && is_prefix p' s'
  | _ :: _, [] => false
  end.

(** [s.startsWith(p)] *)
Definition startsWith (s p : string) : bool := is_prefix (chars p) (chars s).

(** [s.endsWith(p)] *)
Definition endsWith (s p : string) : bool :=
  is_prefix (rev (chars p)) (rev (chars s)).

(** [s.substring(i)], for [0 <= i]. *)
Definition substring_from (i : nat) (s : string) : string :=
  str (drop i (chars s)).

(** [s.substring(0, j)], for [0 <= j]. *)
Definition substring_to (j : nat) (s : string) : string :=
  str (take j (chars s)).

(** Decimal rendering of an integer, as a template literal gives it for
    integers of magnitude below 10^21. *)
Definition string_of_Z (z : Z) : string :=
  NilZero.string_of_int (Z.to_int z).

End JsString.
Import JsString.

(** ** JSON values *)

Inductive json : Type :=
  | JNull
  | JBool (b : bool)
  | JNum (m e : Z)                  (* the number m * 10^e *)
  | JStr (s : string)
  | JArr (items : list json)
  | JObj (props : gmap string json).

(** An integer as a JSON number. *)
Definition JInt (z : Z) : json := JNum z 0.

(** ** [JSON.parse] *)

Module JsonParser.

(** Result of parsing a prefix of the input. *)
Inductive parsed (A : Type) : Type :=
  | Parsed (a : A) (rest : list ascii)
  | SyntaxErr
  | NoFuel.
Arguments Parsed {A} a rest.
Arguments SyntaxErr {A}.
Arguments NoFuel {A}.

Fixpoint skip_ws (s : list ascii) : list ascii :=
  match s with
  | c :: r => if is_json_ws c then skip_ws r else s
  | [] => []
  end.

Fixpoint strip_prefix (p s : list ascii) : option (list ascii) :=
  match p, s with
  | [], _ => Some s
  | a :: p', b :: s' => if Ascii.eqb a b then strip_prefix p' s' else None
  | _ :: _, [] => None
  end.

(** Digits at the front of the input, and what follows them. *)
Fixpoint span_digits (s : list ascii) : list ascii * list ascii :=
  match s with
  | c :: r =>
      if is_digit c then let (ds, r') := span_digits r in (c :: ds, r')
      else ([], s)
  | [] => ([], [])
  end.

Definition digits_val (ds : list ascii) : Z :=
  fold_left (fun acc c => 10 * acc + digit_val c) ds 0.

(** The simple escapes of a JSON string: the character after the backslash
    and the byte it stands for. *)
Definition simple_escape (c : ascii) : option ascii :=
  if Ascii.eqb c dquote then Some dquote
  else if Ascii.eqb c backslash then Some backslash
  else if Ascii.eqb c "/" then Some "/"%char
  else if Ascii.eqb c "b" then Some "008"%char
  else if Ascii.eqb c "f" then Some "012"%char
  else if Ascii.eqb c "n" then Some "010"%char
  else if Ascii.eqb c "r" then Some "013"%char
  else if Ascii.eqb c "t" then Some "009"%char
  else None.

Definition hex4 (a b c d : ascii) : option Z :=
  match hex_val a, hex_val b, hex_val c, hex_val d with
  | Some x, Some y, Some z, Some w => Some (((x * 16 + y) * 16 + z) * 16 + w)
  | _, _, _, _ => None
  end.

(** The characters of a string literal after its opening quote, up to and
    including the closing quote.  [acc] holds the decoded bytes, reversed. *)
Fixpoint parse_chars (s : list ascii) (acc : list ascii)
  : option (string * list ascii) :=
  match s with
  | [] => None
  | c :: r =>
      if Ascii.eqb c dquote then Some (string_of_list_ascii (rev acc), r)
      else if Ascii.eqb c backslash then
        match r with
        | [] => None
        | e :: r' =>
            match simple_escape e with
            | Some x => parse_chars r' (x :: acc)
            | None =>
                if Ascii.eqb e "u" then
                  match r' with
                  | h1 :: h2 :: h3 :: h4 :: r'' =>
                      match hex4 h1 h2 h3 h4 with
                      | Some n => parse_chars r'' (rev (utf8 n) ++ acc)
                      | None => None
                      end
                  | _ => None
                  end
                else None
            end
        end
      else if (nat_of_ascii c <? 32)%nat then None
      else parse_chars r (c :: acc)
  end.

(** A number literal: an optional minus sign; an integer part, either a
    single 0 or a non-zero digit followed by digits; an optional fraction, a
    dot and at least one digit; an optional exponent, e or E, an optional
    sign and at least one digit. *)
Definition parse_sign (s : list ascii) : Z * list ascii :=
  match s with
  | c :: r => if Ascii.eqb c "-" then (-1, r) else (1, s)
  | [] => (1, s)
  end.

Definition parse_int_part (s : list ascii) : option (list ascii * list ascii) :=
  match span_digits s with
  | ([], _) => None
  | (d :: ds, r) =>
      if Ascii.eqb d "0" then
        match ds with [] => Some ([d], r) | _ :: _ => None end
      else Some (d :: ds, r)
  end.

Definition parse_frac_part (s : list ascii) : option (list ascii * list ascii) :=
  match s with
  | c :: r =>
      if Ascii.eqb c "." then
        match span_digits r with
        | ([], _) => None
        | (ds, r') => Some (ds, r')
        end
      else Some ([], s)
  | [] => Some ([], s)
  end.

Definition parse_exp_part (s : list ascii) : option (Z * list ascii) :=
  match s with
  | c :: r =>
      if Ascii.eqb c "e" || Ascii.eqb c "E" then
        let (sg, r1) :=
          match r with
          | x :: r0 =>
              if Ascii.eqb x "+" then (1, r0)
              else if Ascii.eqb x "-" then (-1, r0)
              else (1, r)
          | [] => (1, r)
          end in
        match span_digits r1 with
        | ([], _) => None
        | (ds, r') => Some (sg * digits_val ds, r')
        end
      else Some (0, s)
  | [] => Some (0, s)
  end.

Definition parse_number (s : list ascii) : parsed json :=
  let (sg, s1) := parse_sign s in
  match parse_int_part s1 with
  | None => SyntaxErr
  | Some (ip, s2) =>
      match parse_frac_part s2 with
      | None => SyntaxErr
      | Some (fp, s3) =>
          match parse_exp_part s3 with
          | None => SyntaxErr
          | Some (ex, s4) =>
              Parsed (JNum (sg * digits_val (ip ++ fp))
                           (ex - Z.of_nat (length fp))) s4
          end
      end
  end.

(** A JSON value, after optional white space.  [parse_members] reads the
    members of an object after its opening brace (at least one member),
    [parse_elements] the elements of an array after its opening bracket; a
    repeated property name keeps the last value, as [JSON.parse] does. *)
Fixpoint parse_value (fuel : nat) (s : list ascii) : parsed json :=
  match fuel with
  | O => NoFuel
  | S fuel' =>
      match skip_ws s with
      | [] => SyntaxErr
      | c :: r =>
          if Ascii.eqb c "{" then
            match skip_ws r with
            | [] => SyntaxErr
            | c1 :: r1 =>
                if Ascii.eqb c1 "}" then Parsed (JObj ∅) r1
                else parse_members fuel' (c1 :: r1) ∅
            end
          else if Ascii.eqb c "[" then
            match skip_ws r with
            | [] => SyntaxErr
            | c1 :: r1 =>
                if Ascii.eqb c1 "]" then Parsed (JArr []) r1
                else parse_elements fuel' (c1 :: r1) []
            end
          else if Ascii.eqb c dquote then
            match parse_chars r [] with
            | Some (str, r') => Parsed (JStr str) r'
            | None => SyntaxErr
            end
          else if Ascii.eqb c "t" then
            match strip_prefix (list_ascii_of_string "rue") r with
            | Some r' => Parsed (JBool true) r'
            | None => SyntaxErr
            end
          else if Ascii.eqb c "f" then
            match strip_prefix (list_ascii_of_string "alse") r with
            | Some r' => Parsed (JBool false) r'
            | None => SyntaxErr
            end
          else if Ascii.eqb c "n" then
            match strip_prefix (list_ascii_of_string "ull") r with
            | Some r' => Parsed JNull r'
            | None => SyntaxErr
            end
          else parse_number (c :: r)
      end
  end
with parse_members (fuel : nat) (s : list ascii) (acc : gmap string json)
  : parsed json :=
  match fuel with
  | O => NoFuel
  | S fuel' =>
      match skip_ws s with
      | [] => SyntaxErr
      | c :: r =>
          if Ascii.eqb c dquote then
            match parse_chars r [] with
            | None => SyntaxErr
            | Some (k, r1) =>
                match skip_ws r1 with
                | [] => SyntaxErr
                | c2 :: r2 =>
                    if Ascii.eqb c2 ":" then
                      match parse_value fuel' r2 with
                      | Parsed v r3 =>
                          match skip_ws r3 with
                          | [] => SyntaxErr
                          | c4 :: r4 =>
                              if Ascii.eqb c4 "," then
                                parse_members fuel' r4 (<[k := v]> acc)
                              else if Ascii.eqb c4 "}" then
                                Parsed (JObj (<[k := v]> acc)) r4
                              else SyntaxErr
                          end
                      | SyntaxErr => SyntaxErr
                      | NoFuel => NoFuel
                      end
                    else SyntaxErr
                end
            end
          else SyntaxErr
      end
  end
with parse_elements (fuel : nat) (s : list ascii) (acc : list json)
  : parsed json :=
  match fuel with
  | O => NoFuel
  | S fuel' =>
      match parse_value fuel' s with
      | Parsed v r1 =>
          match skip_ws r1 with
          | [] => SyntaxErr
          | c2 :: r2 =>
              if Ascii.eqb c2 "," then parse_elements fuel' r2 (acc ++ [v])
              else if Ascii.eqb c2 "]" then Parsed (JArr (acc ++ [v])) r2
              else SyntaxErr
          end
      | SyntaxErr => SyntaxErr
      | NoFuel => NoFuel
      end
  end.

(** Outcome of [JSON.parse]: a value, or the [SyntaxError] it throws.
    [OutOfFuel] is an artefact of the model and never occurs
    ([JSON_parse_fuel_enough]). *)
Inductive parse_outcome : Type :=
  | ParseOk (v : json)
  | ParseSyntaxError
  | OutOfFuel.

Definition JSON_parse (text : string) : parse_outcome :=
  let s := list_ascii_of_string text in
  match parse_value (S (2 * length s)) s with
  | Parsed v r =>
      match skip_ws r with
      | [] => ParseOk v
      | _ :: _ => ParseSyntaxError
      end
  | SyntaxErr => ParseSyntaxError
  | NoFuel => OutOfFuel
  end.

End JsonParser.
Import JsonParser.

(** ** The JavaScript runtime: values, exceptions, the world, effects *)

(** A JavaScript value read from JSON data: [None] is [undefined]. *)
Definition jsval : Type := option json.

(** The double nearest to [m * 10^e] is zero: [m] is zero, or the magnitude
    is at most 2^-1075, half the smallest positive double. *)
Definition rounds_to_zero (m e : Z) : bool :=
  (m =? 0) || ((e <? 0) && (Z.abs m * 2 ^ 1075 <=? 10 ^ (- e))).

Definition truthy (v : jsval) : bool :=
  match v with
  | None => false
  | Some JNull => false
  | Some (JBool b) => b
  | Some (JNum m e) => negb (rounds_to_zero m e)
  | Some (JStr s) => negb (String.eqb s "")
  | Some (JArr _) => true
  | Some (JObj _) => true
  end.

(** The property keys the source reads: a name, or the index 0. *)
Inductive key : Type :=
  | Named (name : string)
  | Index0.

(** [v[k]] for a value [v] that is neither [undefined] nor [null].  The names
    the source reads ([candidates], [content], [parts], [text],
    [generated_text]) are not built-in properties of arrays, strings, numbers
    or booleans, so a named read finds something on an object only. *)
Definition own_property (v : json) (k : key) : jsval :=
  match v, k with
  | JObj o, Named n => o !! n
  | JObj o, Index0 => o !! "0"
  | JArr l, Index0 => head l
  | JStr (String c _), Index0 => Some (JStr (String c EmptyString))
  | _, _ => None
  end.

(** Faults raised by the runtime rather than by a [throw] of the source. *)
Inductive engine_fault : Type :=
  | FetchFailed          (* [fetch] rejects: no response was obtained *)
  | BodyNotJson          (* [response.json()] rejects *)
  | JsonSyntax           (* [JSON.parse] throws a SyntaxError *)
  | NotAnObject          (* TypeError: a property of undefined or null is
                            read, a property of null or of a primitive is
                            written, a missing method is called *)
  | NoRequestBody.       (* TypeError: destructuring an undefined body *)

Inductive exn : Type :=
  | Error (msg : string)            (* [new Error(msg)] *)
  | EngineError (f : engine_fault).

Record response : Type := {
  status : Z;
  statusText : string;
  body : option json                (* what [response.json()] resolves to;
                                       [None] when it rejects *)
}.

(** [response.ok] *)
Definition ok (r : response) : bool := (200 <=? status r) && (status r <=? 299).

Inductive endpoint : Type :=
  | GeminiGenerateContent (apiKey : string)
  | HuggingFaceInference.

Inductive fetch_outcome : Type :=
  | Rejects
  | Resolves (r : response).

(** What a request sees of its environment: the outcome of its [k]-th fetch,
    the time [new Date().toISOString()] reads, and the text the engine puts
    in the [message] of the errors it raises itself. *)
Record world : Type := {
  net : nat -> endpoint -> fetch_outcome;
  now : string;
  engine_message : engine_fault -> string
}.

Inductive console_line : Type :=
  | ConsoleLog (msg : string)
  | ConsoleError (msg : string) (detail : string).

(** The HTTP response under construction ([res]). *)
Record http_response : Type := {
  headers : list (string * string);
  code : option Z;
  payload : option json;
  ended : bool
}.

Record state : Type := {
  fetches : list endpoint;
  console : list console_line;
  res : http_response
}.

Definition initial : state :=
  {| fetches := []; console := [];
     res := {| headers := []; code := None; payload := None; ended := false |} |}.

Definition record_fetch (e : endpoint) (s : state) : state :=
  {| fetches := fetches s ++ [e]; console := console s; res := res s |}.

Definition record_line (l : console_line) (s : state) : state :=
  {| fetches := fetches s; console := console s ++ [l]; res := res s |}.

Inductive outcome (A : Type) : Type :=
  | Val (a : A)
  | Exc (e : exn).
Arguments Val {A} a.
Arguments Exc {A} e.

(** Computations: they may throw, and they thread the state. *)
Definition M (A : Type) : Type := state -> outcome A * state.

Definition ret {A} (a : A) : M A := fun s => (Val a, s).

Definition throw {A} (e : exn) : M A := fun s => (Exc e, s).

Definition bind {A B} (m : M A) (k : A -> M B) : M B :=
  fun s =>
    match m s with
    | (Val a, s') => k a s'
    | (Exc e, s') => (Exc e, s')
    end.

(** [try { m } catch (e) { h e }] *)
Definition try_catch {A} (m : M A) (h : exn -> M A) : M A :=
  fun s =>
    match m s with
    | (Val a, s') => (Val a, s')
    | (Exc e, s') => h e s'
    end.

Notation "'let!' x ':=' m 'in' k" := (bind m (fun x => k))
  (at level 10, x name, m at level 100, k at level 200).
Notation "'run!' m 'in' k" := (bind m (fun _ => k))
  (at level 10, m at level 100, k at level 200).

Section Runtime.

Context (w : world).

(** [error.message] *)
Definition message (e : exn) : string :=
  match e with
  | Error msg => msg
  | EngineError f => engine_message w f
  end.

(** [await fetch(...)]: the outcome is the world's answer to this request's
    next fetch; the call is recorded. *)
Definition fetch (e : endpoint) : M response :=
  fun s =>
    match net w (length (fetches s)) e with
    | Resolves r => (Val r, record_fetch e s)
    | Rejects => (Exc (EngineError FetchFailed), record_fetch e s)
    end.

(** [await response.json()] *)
Definition response_json (r : response) : M jsval :=
  match body r with
  | Some v => ret (Some v)
  | None => throw (EngineError BodyNotJson)
  end.

(** [v[k]] or [v.k]: a TypeError when [v] is [undefined] or [null]. *)
Definition get (v : jsval) (k : key) : M jsval :=
  match v with
  | None => throw (EngineError NotAnObject)
  | Some JNull => throw (EngineError NotAnObject)
  | Some j => ret (own_property j k)
  end.

(** [v?.k] *)
Definition get_optional (v : jsval) (k : key) : jsval :=
  match v with
  | None => None
  | Some JNull => None
  | Some j => own_property j k
  end.

(** [v.k = x], as seen in the JSON form of [v] afterwards.  An object gets
    the property; an array accepts it, but a named property of an array is
    not part of its JSON form; [null] and, the module being strict code, a
    primitive raise a TypeError. *)
Definition set_property (v : json) (k : string) (x : json) : M json :=
  match v with
  | JObj o => ret (JObj (<[k := x]> o))
  | JArr l => ret (JArr l)
  | _ => throw (EngineError NotAnObject)
  end.

(** [JSON.parse(text)] *)
Definition JSON_parse_M (text : string) : M json :=
  match JSON_parse text with
  | ParseOk v => ret v
  | ParseSyntaxError => throw (EngineError JsonSyntax)
  | OutOfFuel => throw (EngineError JsonSyntax)
  end.

Definition console_log (msg : string) : M unit :=
  fun s => (Val tt, record_line (ConsoleLog msg) s).

Definition console_error (msg detail : string) : M unit :=
  fun s => (Val tt, record_line (ConsoleError msg detail) s).

Definition update_res (f : http_response -> http_response) : M unit :=
  fun s => (Val tt, {| fetches := fetches s; console := console s;
                       res := f (res s) |}).

(** [res.setHeader(name, value)] *)
Definition setHeader (name value : string) : M unit :=
  update_res (fun r => {| headers := headers r ++ [(name, value)];
                          code := code r; payload := payload r;
                          ended := ended r |}).

(** [res.status(c).end()] *)
Definition res_status_end (c : Z) : M unit :=
  update_res (fun r => {| headers := headers r; code := Some c;
                          payload := payload r; ended := true |}).

(** [res.status(c).json(v)] *)
Definition res_status_json (c : Z) (v : json) : M unit :=
  update_res (fun r => {| headers := headers r; code := Some c;
                          payload := Some v; ended := true |}).

End Runtime.

(** ** The quizzes built locally *)

(** A question object literal of the source; [options] is absent from a
    true/false question. *)
Record Question : Type := {
  question : string;
  type : string;
  options : option (list string);
  answer : string;
  explanation : string;
  difficulty : string
}.

Record Quiz : Type := {
  title : string;
  total_questions : Z;
  questions : list Question;
  source : string;
  generated_at : string
}.

(** The JSON form of these objects, as [res.json] sends them. *)
Definition question_props (q : Question) : gmap string json :=
  let base : gmap string json :=
    <["question" := JStr (question q)]>
    (<["type" := JStr (type q)]>
    (<["answer" := JStr (answer q)]>
    (<["explanation" := JStr (explanation q)]>
    (<["difficulty" := JStr (difficulty q)]> ∅)))) in
  match options q with
  | Some os => <["options" := JArr (map JStr os)]> base
  | None => base
  end.

Definition json_of_question (q : Question) : json := JObj (question_props q).

Definition quiz_props (q : Quiz) : gmap string json :=
  <["title" := JStr (title q)]>
  (<["total_questions" := JInt (total_questions q)]>
  (<["questions" := JArr (map json_of_question (questions q))]>
  (<["source" := JStr (source q)]>
  (<["generated_at" := JStr (generated_at q)]> ∅)))).

Definition json_of_quiz (q : Quiz) : json := JObj (quiz_props q).

(** [a < b] on JavaScript numbers.  The operands are modelled as exact
    rationals; for an index [i] and a count below 2^52 the comparisons
    [i < count / 3] and [i < 2 * count / 3] on doubles give the same answer,
    a quotient by 3 of such a count being rounded by less than a third. *)
Definition num_lt (a b : Q) : bool := negb (Qle_bool b a).

(** The conditional chain of the [difficulty] property: easy when
    [i < numQuestions / 3], else medium when [i < 2 * numQuestions / 3],
    else hard. *)
Definition difficulty_at (i numQuestions : Z) : string :=
  if num_lt (inject_Z i) (inject_Z numQuestions / 3)%Q then "easy"
  else if num_lt (inject_Z i) (2 * inject_Z numQuestions / 3)%Q then "medium"
  else "hard".

(** The values [i] takes in [for (let i = 0; i < numQuestions; i++)]. *)
Definition loop_indices (numQuestions : Z) : list Z := seqZ 0 numQuestions.

Section Generators.

Context (w : world).

(** The body of the loop of [createStructuredQuiz] at index [i]. *)
Definition structured_question (topic : string) (numQuestions i : Z) : Question :=
  let isMultipleChoice := (i mod 2 =? 0) in
  if isMultipleChoice then
    {| question := "What is an important aspect of " +:+ topic +:+ "?";
       type := "multiple-choice";
       options := Some [ "A) A key concept in " +:+ topic;
                         "B) A secondary element of " +:+ topic;
                         "C) A minor detail about " +:+ topic;
                         "D) An unrelated topic" ];
       answer := "A) A key concept in " +:+ topic;
       explanation := "This question tests your understanding of " +:+ topic
                      +:+ " fundamentals.";
       difficulty := difficulty_at i numQuestions |}
  else
    {| question := "True or False: " +:+ topic +:+ " is a valuable subject to study.";
       type := "true-false";
       options := None;
       answer := "True";
       explanation := topic +:+ " provides important knowledge and understanding.";
       difficulty := difficulty_at i numQuestions |}.

Definition createStructuredQuiz (topic : string) (numQuestions : Z)
    (content : string) : Quiz :=
  {| title := topic +:+ " Quiz";
     total_questions := numQuestions;
     questions := map (structured_question topic numQuestions)
                      (loop_indices numQuestions);
     source := "AI-generated quiz about " +:+ topic;
     generated_at := now w |}.

(** The body of the loop of [generateFallbackQuiz] at index [i]. *)
Definition fallback_question (topic : string) (numQuestions i : Z) : Question :=
  let isMultipleChoice := (i mod 2 =? 0) in
  if isMultipleChoice then
    {| question := "What is a key aspect of " +:+ topic +:+ "?";
       type := "multiple-choice";
       options := Some [ "A) An important concept related to " +:+ topic;
                         "B) A secondary aspect of " +:+ topic;
                         "C) A minor detail about " +:+ topic;
                         "D) An unrelated topic" ];
       answer := "A) An important concept related to " +:+ topic;
       explanation := "This question tests your understanding of " +:+ topic
                      +:+ " fundamentals.";
       difficulty := difficulty_at i numQuestions |}
  else
    {| question := "True or False: " +:+ topic
                   +:+ " is an important subject worth studying.";
       type := "true-false";
       options := None;
       answer := "True";
       explanation := topic
                      +:+ " is indeed an important subject that provides valuable knowledge.";
       difficulty := difficulty_at i numQuestions |}.

Definition generateFallbackQuiz (topic : string) (numQuestions : Z) : Quiz :=
  {| title := topic +:+ " Quiz";
     total_questions := numQuestions;
     questions := map (fallback_question topic numQuestions)
                      (loop_indices numQuestions);
     source := "Fallback quiz for " +:+ topic;
     generated_at := now w |}.

End Generators.

(** ** Cleaning the provider text *)

(** The clean-up of [generateQuizWithGemini]:
    [trim], then drop a leading [```json], then drop a trailing [```]. *)
Definition cleanText (quizText : string) : string :=
  let c0 := trim quizText in
  let c1 := if startsWith c0 "```json" then substring_from 7 c0 else c0 in
  if endsWith c1 "```" then substring_to (String.length c1 - 3) c1 else c1.

Fixpoint drop_until (c : ascii) (s : list ascii) : list ascii :=
  match s with
  | x :: r => if Ascii.eqb x c then s else drop_until c r
  | [] => []
  end.

(** [text.match(/\{[\s\S]*\}/)]: the match starts at the first opening brace
    and, the star being greedy, ends at the last closing brace after it;
    [None] is the [null] of a failed match. *)
Definition match_braces (text : string) : option string :=
  match drop_until "{" (chars text) with
  | [] => None
  | open :: r =>
      match drop_until "}" (rev r) with
      | [] => None
      | close :: inner => Some (str (open :: rev (close :: inner)))
      end
  end.

(** ** The provider adapters and the handler *)

Section Handler.

Context (w : world).

Definition generateQuizWithGemini (apiKey topic : string) (numQuestions : Z)
  : M json :=
  (* the prompt only travels to the provider; the world decides the answer *)
  let! response := fetch w (GeminiGenerateContent apiKey) in
  if negb (ok response) then
    throw (Error ("API request failed: " +:+ string_of_Z (status response)
                  +:+ " " +:+ statusText response))
  else
    let! data := response_json response in
    let! candidates := get data (Named "candidates") in
    if negb (truthy candidates) then throw (Error "Invalid response from API")
    else
      let! candidate0 := get candidates Index0 in
      if negb (truthy candidate0) then throw (Error "Invalid response from API")
      else
        let! content := get candidate0 (Named "content") in
        if negb (truthy content) then throw (Error "Invalid response from API")
        else
          let! parts := get content (Named "parts") in
          let! part0 := get parts Index0 in
          let! quizText := get part0 (Named "text") in
          match quizText with
          | Some (JStr text) =>
              let! quiz := JSON_parse_M (cleanText text) in
              (* Add metadata *)
              let! quiz1 := set_property quiz "source"
                              (JStr ("AI analysis of " +:+ topic)) in
              set_property quiz1 "generated_at" (JStr (now w))
          | _ => throw (EngineError NotAnObject)     (* no [trim] to call *)
          end.

Definition generateQuizWithOpenAI (topic : string) (numQuestions : Z) : M json :=
  throw (Error "OpenAI API not configured").

Definition huggingFacePrompt (topic : string) (numQuestions : Z) : string :=
  "Create a quiz about " +:+ dq +:+ topic +:+ dq +:+ " with "
  +:+ string_of_Z numQuestions
  +:+ " questions. Use only multiple-choice and true/false questions. Format as JSON with title, total_questions, and questions array.".

Definition generateQuizWithHuggingFace (topic : string) (numQuestions : Z)
  : M json :=
  let prompt := huggingFacePrompt topic numQuestions in
  try_catch
    (let! response := fetch w HuggingFaceInference in
     if negb (ok response) then
       throw (Error ("Hugging Face API error: " +:+ string_of_Z (status response)))
     else
       let! data := response_json response in
       let! data0 := get data Index0 in
       let generated_text := get_optional data0 (Named "generated_text") in
       let quizText := if truthy generated_text then generated_text
                       else Some (JStr prompt) in
       match quizText with
       | Some (JStr text) =>
           (* Try to extract JSON from the response *)
           match match_braces text with
           | Some jsonMatch => JSON_parse_M jsonMatch
           | None =>
               (* If no JSON found, create a structured quiz *)
               ret (json_of_quiz (createStructuredQuiz w topic numQuestions text))
           end
       | _ => throw (EngineError NotAnObject)        (* no [match] to call *)
       end)
    (fun error => throw (Error ("Hugging Face API failed: " +:+ message w error))).

(** The body of a POST request; an absent property is [None]. *)
Record request_body : Type := {
  api_key : option string;
  topic : option string;
  num_questions : option Z
}.

Record request : Type := {
  method : string;
  req_body : option request_body
}.

(** [!s] for a string property that may be absent. *)
Definition missing (s : option string) : bool :=
  match s with
  | None => true
  | Some x => String.eqb x ""
  end.

Definition error_body (msg : string) : json := JObj {[ "error" := JStr msg ]}.

(** The chain of adapters, from [let quiz = null] to the value sent. *)
Definition generate (api_key topic : string) (num_questions : Z) : M json :=
  try_catch
    (let! quiz := generateQuizWithGemini api_key topic num_questions in
     run! console_log "✅ Generated quiz with Gemini API" in
     ret quiz)
    (fun error =>
       run! console_error "❌ Gemini API failed:" (message w error) in
       try_catch
         (let! quiz := generateQuizWithOpenAI topic num_questions in
          run! console_log "✅ Generated quiz with OpenAI API" in
          ret quiz)
         (fun openaiError =>
            run! console_error "❌ OpenAI API failed:" (message w openaiError) in
            try_catch
              (let! quiz := generateQuizWithHuggingFace topic num_questions in
               run! console_log "✅ Generated quiz with Hugging Face API" in
               ret quiz)
              (fun hfError =>
                 run! console_error "❌ Hugging Face API failed:" (message w hfError) in
                 run! console_log "🔄 Using local fallback quiz generation" in
                 ret (json_of_quiz (generateFallbackQuiz w topic num_questions))))).

Definition handler (req : request) : M unit :=
  run! setHeader "Access-Control-Allow-Origin" "*" in
  run! setHeader "Access-Control-Allow-Methods" "GET, POST, PUT, DELETE, OPTIONS" in
  run! setHeader "Access-Control-Allow-Headers"
                 "Content-Type, Authorization, X-Requested-With" in
  run! setHeader "Access-Control-Max-Age" "86400" in
  if String.eqb (method req) "OPTIONS" then res_status_end 200
  else if negb (String.eqb (method req) "POST") then
    res_status_json 405 (error_body "Method not allowed")
  else
    try_catch
      (match req_body req with
       | None => throw (EngineError NoRequestBody)
       | Some b =>
           let num_questions := default 10 (num_questions b) in
           if missing (api_key b) then
             res_status_json 400 (error_body "API key is required")
           else if missing (topic b) then
             res_status_json 400 (error_body "Topic is required")
           else
             let! quiz := generate (default "" (api_key b)) (default "" (topic b))
                                   num_questions in
             res_status_json 200 quiz
       end)
      (fun error =>
         run! console_error "Error generating quiz:" (message w error) in
         res_status_json 500
           (error_body ("Failed to generate quiz: " +:+ message w error))).

(** The state a request leaves behind. *)
Definition serve (req : request) : state := snd (handler req initial).

(** The second copy of the endpoint in the sources has the same Gemini
    adapter and no fallback: a failure of the adapter reaches the outer
    [catch]. *)
Definition handler_gemini_only (req : request) : M unit :=
  run! setHeader "Access-Control-Allow-Origin" "*" in
  run! setHeader "Access-Control-Allow-Methods" "POST, OPTIONS" in
  run! setHeader "Access-Control-Allow-Headers" "Content-Type" in
  if String.eqb (method req) "OPTIONS" then res_status_end 200
  else if negb (String.eqb (method req) "POST") then
    res_status_json 405 (error_body "Method not allowed")
  else
    try_catch
      (match req_body req with
       | None => throw (EngineError NoRequestBody)
       | Some b =>
           let num_questions := default 10 (num_questions b) in
           if missing (api_key b) then
             res_status_json 400 (error_body "API key is required")
           else if missing (topic b) then
             res_status_json 400 (error_body "Topic is required")
           else
             (* Call Google Gemini API directly *)
             let! quiz := generateQuizWithGemini (default "" (api_key b))
                            (default "" (topic b)) num_questions in
             res_status_json 200 quiz
       end)
      (fun error =>
         run! console_error "Error generating quiz:" (message w error) in
         res_status_json 500
           (error_body ("Failed to generate quiz: " +:+ message w error))).

End Handler.

(** ** What the specification asks of a quiz *)

Module Spec.

Definition is_nonempty_string (v : jsval) : bool :=
  match v with
  | Some (JStr s) => negb (String.eqb s "")
  | _ => false
  end.

Definition is_string (v : jsval) : bool :=
  match v with
  | Some (JStr _) => true
  | _ => false
  end.

Definition string_among (v : jsval) (l : list string) : bool :=
  match v with
  | Some (JStr s) => existsb (String.eqb s) l
  | _ => false
  end.

Definition json_is_string (s : string) (v : json) : bool :=
  match v with
  | JStr x => String.eqb x s
  | _ => false
  end.

(** The value of the number [m * 10^e] is the integer [z]. *)
Definition number_is (m e z : Z) : bool :=
  if 0 <=? e then m * 10 ^ e =? z else m =? z * 10 ^ (- e).

(** Section 3 of the specification, Question: non-empty [question] and
    [explanation]; [type] one of the two recognised values; for
    multiple-choice exactly 4 options with the answer literally among them;
    for true-false no options and the answer [True] or [False]; [difficulty]
    one of the three bands. *)
Definition schema_question (q : json) : bool :=
  match q with
  | JObj o =>
      is_nonempty_string (o !! "question")
      && is_nonempty_string (o !! "explanation")
      && string_among (o !! "difficulty") ["easy"; "medium"; "hard"]
      && match o !! "type", o !! "answer" with
         | Some (JStr t), Some (JStr a) =>
             if String.eqb t "multiple-choice" then
               match o !! "options" with
               | Some (JArr os) =>
                   (length os =? 4)%nat
                   && forallb (fun x => is_string (Some x)) os
                   && existsb (json_is_string a) os
               | _ => false
               end
             else if String.eqb t "true-false" then
               match o !! "options" with
               | None => true
               | Some (JArr []) => true
               | _ => false
               end
               && existsb (String.eqb a) ["True"; "False"]
             else false
         | _, _ => false
         end
  | _ => false
  end.

(** Section 3 of the specification, Quiz: non-empty [title]; at least one
    question, each one well formed; [total_questions] equal to the number of
    questions; [source] and [generated_at] present. *)
Definition schema_quiz (v : json) : bool :=
  match v with
  | JObj o =>
      is_nonempty_string (o !! "title")
      && match o !! "questions", o !! "total_questions" with
         | Some (JArr qs), Some (JNum m e) =>
             (1 <=? length qs)%nat
             && forallb schema_question qs
             && number_is m e (Z.of_nat (length qs))
         | _, _ => false
         end
      && is_string (o !! "source")
      && is_string (o !! "generated_at")
  | _ => false
  end.

(** Section 4.5 of the specification: difficulty bands with boundaries by
    floor division, the items beyond three equal bands being hard. *)
Definition difficulty_by_floor (i count : Z) : string :=
  if i <? count / 3 then "easy"
  else if i <? 2 * (count / 3) then "medium"
  else "hard".

(** Section 4.3 of the specification: the first top-level span of balanced
    braces of a text. *)
Fixpoint balanced_from (depth : nat) (s acc : list ascii) : option (list ascii) :=
  match s with
  | [] => None
  | c :: r =>
      if Ascii.eqb c "{" then balanced_from (S depth) r (c :: acc)
      else if Ascii.eqb c "}" then
        match depth with
        | O => None
        | S O => Some (rev (c :: acc))
        | S d => balanced_from d r (c :: acc)
        end
      else balanced_from depth r (c :: acc)
  end.

Definition first_balanced_span (text : string) : option string :=
  match drop_until "{" (chars text) with
  | [] => None
  | l => str <$> balanced_from 0 l []
  end.

End Spec.
Import Spec.

(** ** Worlds and requests used in the examples *)

Module Examples.

(** No fetch gets a response. *)
Definition offline : world :=
  {| net := fun _ _ => Rejects;
     now := "2025-01-01T00:00:00.000Z";
     engine_message := fun _ => "engine error" |}.

(** The envelope of a Gemini answer whose first candidate carries [text]. *)
Definition gemini_body (text : string) : json :=
  JObj {[ "candidates" :=
    JArr [ JObj {[ "content" :=
      JObj {[ "parts" := JArr [ JObj {[ "text" := JStr text ]} ] ]} ]} ] ]}.

Definition ok_response (v : json) : response :=
  {| status := 200; statusText := "OK"; body := Some v |}.

(** Gemini answers the first fetch with [text]; any other fetch fails. *)
Definition gemini_says (text : string) : world :=
  {| net := fun k e =>
       match k, e with
       | O, GeminiGenerateContent _ => Resolves (ok_response (gemini_body text))
       | _, _ => Rejects
       end;
     now := "2025-01-01T00:00:00.000Z";
     engine_message := fun _ => "engine error" |}.

(** Gemini fails; Hugging Face answers with the generated text [text]. *)
Definition hugging_face_says (text : string) : world :=
  {| net := fun k e =>
       match e with
       | HuggingFaceInference =>
           Resolves (ok_response (JArr [ JObj {[ "generated_text" := JStr text ]} ]))
       | GeminiGenerateContent _ => Rejects
       end;
     now := "2025-01-01T00:00:00.000Z";
     engine_message := fun _ => "engine error" |}.

(** In [w], Gemini answers the first fetch of a request with the usual
    envelope around [text]. *)
Definition gemini_answers (w : world) (key text : string) : Prop :=
  exists r, net w 0 (GeminiGenerateContent key) = Resolves r /\
            ok r = true /\ body r = Some (gemini_body text).

(** In [w], Hugging Face answers the second fetch of a request with the
    generated text [text]. *)
Definition hugging_face_answers (w : world) (text : string) : Prop :=
  exists r, net w 1 HuggingFaceInference = Resolves r /\ ok r = true /\
            body r = Some (JArr [ JObj {[ "generated_text" := JStr text ]} ]).

(** Gemini answers with [text] and Hugging Face with the generated text
    [generated], whenever they are asked. *)
Definition providers_say (text generated : string) : world :=
  {| net := fun k e =>
       match e with
       | GeminiGenerateContent _ => Resolves (ok_response (gemini_body text))
       | HuggingFaceInference =>
           Resolves (ok_response
                       (JArr [ JObj {[ "generated_text" := JStr generated ]} ]))
       end;
     now := "2025-01-01T00:00:00.000Z";
     engine_message := fun _ => "engine error" |}.

Definition post (key topic : string) (count : Z) : request :=
  {| method := "POST";
     req_body := Some {| api_key := Some key; topic := Some topic;
                         num_questions := Some count |} |}.

(** JSON text, written without quote characters in the source. *)
Definition quoted (s : string) : string := dq +:+ s +:+ dq.
Definition member (k v : string) : string := quoted k +:+ ":" +:+ v.
Definition object (members : list string) : string :=
  "{" +:+ String.concat "," members +:+ "}".
Definition array (items : list string) : string :=
  "[" +:+ String.concat "," items +:+ "]".

(** The text of the object whose only member, [a], is 1, and its value. *)
Definition a1_text : string := object [member "a" "1"].
Definition a1 : json := JObj {[ "a" := JInt 1 ]}.

(** The two texts of the specification's round-trip examples. *)
Definition fenced_text : string := "```json" +:+ nl +:+ a1_text +:+ nl +:+ "```".
Definition prose_text : string := "some text " +:+ a1_text +:+ " more text".

(** The no-break space U+00A0 and the byte order mark U+FEFF, in UTF-8. *)
Definition nbsp : string := str ["194"%char; "160"%char].
Definition bom : string := str ["239"%char; "187"%char; "191"%char].

(** The fenced example between white space outside ASCII; the example with
    the leading marker only, and with the trailing marker only. *)
Definition padded_fenced_text : string :=
  bom +:+ nbsp +:+ fenced_text +:+ nl +:+ nbsp.
Definition leading_fence_text : string := "```json" +:+ nl +:+ a1_text.
Definition trailing_fence_text : string := a1_text +:+ nl +:+ "```".

(** A text that holds the object twice. *)
Definition two_objects_text : string :=
  "first " +:+ a1_text +:+ " and " +:+ a1_text +:+ " last".

(** A candidate quiz with a question of type essay and a multiple-choice
    question whose answer is none of its options. *)
Definition essay_question_text : string :=
  object [ member "question" (quoted "Why?"); member "type" (quoted "essay");
           member "answer" (quoted "Because"); member "explanation" (quoted "E");
           member "difficulty" (quoted "easy") ].
Definition stray_answer_text : string :=
  object [ member "question" (quoted "Which?");
           member "type" (quoted "multiple-choice");
           member "options" (array [quoted "A) 1"; quoted "B) 2";
                                    quoted "C) 3"; quoted "D) 4"]);
           member "answer" (quoted "E) 5"); member "explanation" (quoted "E");
           member "difficulty" (quoted "hard") ].
Definition malformed_quiz_text : string :=
  object [ member "title" (quoted "T"); member "total_questions" "2";
           member "questions" (array [essay_question_text; stray_answer_text]) ].

Definition essay_question : json :=
  JObj (<["question" := JStr "Why?"]> (<["type" := JStr "essay"]>
       (<["answer" := JStr "Because"]> (<["explanation" := JStr "E"]>
       (<["difficulty" := JStr "easy"]> ∅))))).
Definition stray_answer_question : json :=
  JObj (<["question" := JStr "Which?"]> (<["type" := JStr "multiple-choice"]>
       (<["options" := JArr [JStr "A) 1"; JStr "B) 2"; JStr "C) 3"; JStr "D) 4"]]>
       (<["answer" := JStr "E) 5"]> (<["explanation" := JStr "E"]>
       (<["difficulty" := JStr "hard"]> ∅)))))).
Definition malformed_quiz : gmap string json :=
  <["title" := JStr "T"]> (<["total_questions" := JInt 2]>
  (<["questions" := JArr [essay_question; stray_answer_question]]> ∅)).

(** A well-formed true/false question, and a quiz that declares 7 questions
    and carries 5. *)
Definition sound_question_text : string :=
  object [ member "question" (quoted "Is it so?"); member "type" (quoted "true-false");
           member "answer" (quoted "True"); member "explanation" (quoted "E");
           member "difficulty" (quoted "easy") ].
Definition sound_question : json :=
  JObj (<["question" := JStr "Is it so?"]> (<["type" := JStr "true-false"]>
       (<["answer" := JStr "True"]> (<["explanation" := JStr "E"]>
       (<["difficulty" := JStr "easy"]> ∅))))).
Definition seven_for_five_text : string :=
  object [ member "title" (quoted "T"); member "total_questions" "7";
           member "questions" (array (replicate 5 sound_question_text)) ].
Definition seven_for_five : gmap string json :=
  <["title" := JStr "T"]> (<["total_questions" := JInt 7]>
  (<["questions" := JArr (replicate 5 sound_question)]> ∅)).

(** Quizzes as Hugging Face may return them: one without metadata, one that
    names the local fallback as its source. *)
Definition bare_quiz_text : string := object [ member "title" (quoted "T") ].
Definition bare_quiz : json := JObj {[ "title" := JStr "T" ]}.
Definition disguised_quiz_text : string :=
  object [ member "title" (quoted "T");
           member "source" (quoted "Fallback quiz for Math") ].
Definition disguised_quiz : json :=
  JObj (<["title" := JStr "T"]> {[ "source" := JStr "Fallback quiz for Math" ]}).

End Examples.
Import Examples.

(** ** Runs of the chain *)

Module Chain.

(** A computation that leaves the state as it found it. *)
Definition pure {A} (m : M A) : Prop := forall s, snd (m s) = s.

(** The state once the four CORS headers are set. *)
Definition after_headers : state :=
  {| fetches := []; console := [];
     res := {| headers :=
                 [ ("Access-Control-Allow-Origin", "*");
                   ("Access-Control-Allow-Methods", "GET, POST, PUT, DELETE, OPTIONS");
                   ("Access-Control-Allow-Headers",
                    "Content-Type, Authorization, X-Requested-With");
                   ("Access-Control-Max-Age", "86400") ];
               code := None; payload := None; ended := false |} |}.

(** The state after [res.status(c).json(v)]. *)
Definition answered (c : Z) (v : json) (s : state) : state :=
  {| fetches := fetches s; console := console s;
     res := {| headers := headers (res s); code := Some c;
               payload := Some v; ended := true |} |}.

(** The three ways through the chain.  Gemini is asked first; on its failure
    the OpenAI placeholder fails without a fetch and Hugging Face is asked;
    on its failure the quiz is generated locally.  The console receives one
    line per adapter tried. *)
Inductive chain_run w (apiKey topic : string) (n : Z) (s : state)
  : json -> state -> Prop :=
  | ByGemini quiz :
      fst (generateQuizWithGemini w apiKey topic n s) = Val quiz ->
      chain_run w apiKey topic n s quiz
        (record_line (ConsoleLog "✅ Generated quiz with Gemini API")
           (record_fetch (GeminiGenerateContent apiKey) s))
  | ByHuggingFace e s2 quiz :
      fst (generateQuizWithGemini w apiKey topic n s) = Exc e ->
      s2 = record_line (ConsoleError "❌ OpenAI API failed:" "OpenAI API not configured")
             (record_line (ConsoleError "❌ Gemini API failed:" (message w e))
                (record_fetch (GeminiGenerateContent apiKey) s)) ->
      fst (generateQuizWithHuggingFace w topic n s2) = Val quiz ->
      chain_run w apiKey topic n s quiz
        (record_line (ConsoleLog "✅ Generated quiz with Hugging Face API")
           (record_fetch HuggingFaceInference s2))
  | ByFallback e s2 e' :
      fst (generateQuizWithGemini w apiKey topic n s) = Exc e ->
      s2 = record_line (ConsoleError "❌ OpenAI API failed:" "OpenAI API not configured")
             (record_line (ConsoleError "❌ Gemini API failed:" (message w e))
                (record_fetch (GeminiGenerateContent apiKey) s)) ->
      fst (generateQuizWithHuggingFace w topic n s2) = Exc e' ->
      chain_run w apiKey topic n s
        (json_of_quiz (generateFallbackQuiz w topic n))
        (record_line (ConsoleLog "🔄 Using local fallback quiz generation")
           (record_line (ConsoleError "❌ Hugging Face API failed:" (message w e'))
              (record_fetch HuggingFaceInference s2))).

(** What the Gemini adapter returns on an answer with the usual envelope
    around [text], as a function of the parse of the cleaned text
    ([gemini_outcome]). *)
Definition gemini_result (w : world) (topic text : string) : outcome json :=
  match JSON_parse (cleanText text) with
  | ParseOk (JObj o) =>
      Val (JObj (<["generated_at" := JStr (now w)]>
                (<["source" := JStr ("AI analysis of " +:+ topic)]> o)))
  | ParseOk (JArr l) => Val (JArr l)
  | ParseOk _ => Exc (EngineError NotAnObject)
  | _ => Exc (EngineError JsonSyntax)
  end.

(** What the Hugging Face adapter returns on a non-empty generated text: the
    parse of the span of the brace expression, or the templated quiz when
    the expression does not match ([hugging_face_outcome]). *)
Definition hugging_face_result (w : world) (topic : string) (n : Z)
    (text : string) : outcome json :=
  match match_braces text with
  | Some span =>
      match JSON_parse span with
      | ParseOk v => Val v
      | _ => Exc (Error ("Hugging Face API failed: "
                         +:+ engine_message w JsonSyntax))
      end
  | None => Val (json_of_quiz (createStructuredQuiz w topic n text))
  end.

End Chain.
Import Chain.

(** ** Notions used by the further properties *)

Module Endpoint.

(** The state a request leaves behind in the Gemini-only copy. *)
Definition serve_gemini_only (w : world) (req : request) : state :=
  snd (handler_gemini_only w req initial).

(** The state of the Gemini-only copy once its three CORS headers are set. *)
Definition after_headers_gemini_only : state :=
  {| fetches := []; console := [];
     res := {| headers :=
                 [ ("Access-Control-Allow-Origin", "*");
                   ("Access-Control-Allow-Methods", "POST, OPTIONS");
                   ("Access-Control-Allow-Headers", "Content-Type") ];
               code := None; payload := None; ended := false |} |}.

(** The state after [res.status(c).end()]. *)
Definition finished (c : Z) (s : state) : state :=
  {| fetches := fetches s; console := console s;
     res := {| headers := headers (res s); code := Some c;
               payload := payload (res s); ended := true |} |}.

(** A POST request is complete when its body carries a key and a topic. *)
Definition complete (req : request) : bool :=
  String.eqb (method req) "POST"
  && match req_body req with
     | Some b => negb (missing (api_key b)) && negb (missing (topic b))
     | None => false
     end.

(** No fetch of the request obtains a successful response: it is rejected,
    or answered with a status outside 200-299. *)
Definition providers_down (w : world) : Prop :=
  forall k e, match net w k e with
              | Rejects => True
              | Resolves r => ok r = false
              end.

(** The result of a computation does not depend on the state it starts
    from. *)
Definition stateless {A} (m : M A) : Prop :=
  forall s1 s2, fst (m s1) = fst (m s2).

(** A sequence of white space characters, each of them one that [trim]
    removes: of one byte, of two or of three. *)
Inductive blank : list ascii -> Prop :=
  | blank_nil : blank []
  | blank_one a l : is_js_space a = true -> blank l -> blank (a :: l)
  | blank_two a b l : is_space2 a b = true -> blank l -> blank (a :: b :: l)
  | blank_three a b c l :
      is_space3 a b c = true -> blank l -> blank (a :: b :: c :: l).

(** The world in which every fetch has the outcome [o]. *)
Definition always (o : fetch_outcome) : world :=
  {| net := fun _ _ => o;
     now := "2025-01-01T00:00:00.000Z";
     engine_message := fun _ => "engine error" |}.

(** The position of a difficulty among easy, medium, hard. *)
Definition band (d : string) : nat :=
  if String.eqb d "easy" then 0 else if String.eqb d "medium" then 1 else 2.

End Endpoint.
Import Endpoint.

(** * Properties *)

(** ** The parser always has enough fuel *)

Module ParserFacts.

Lemma skip_ws_length (s : list ascii) : (length (skip_ws s) <= length s)%nat.
Proof.
  induction s as [|c r IH]; simpl; [lia|].
  destruct (is_json_ws c); simpl; lia.
Qed.

Lemma skip_ws_cons (s : list ascii) c r :
  skip_ws s = c :: r -> (length r < length s)%nat.
Proof.
  intros H. pose proof (skip_ws_length s) as L. rewrite H in L. simpl in L. lia.
Qed.

Lemma strip_prefix_length (p s r : list ascii) :
  strip_prefix p s = Some r -> (length r <= length s)%nat.
Proof.
  revert s; induction p as [|a p IH]; intros [|b s]; simpl; intros H;
    try discriminate; try (injection H as <-; simpl; lia).
  destruct (Ascii.eqb a b); [|discriminate].
  apply IH in H. lia.
Qed.

Lemma span_digits_length (s ds r : list ascii) :
  span_digits s = (ds, r) -> length s = (length ds + length r)%nat.
Proof.
  revert ds r; induction s as [|c s IH]; simpl; intros ds r H.
  - injection H as <- <-. reflexivity.
  - destruct (is_digit c).
    + destruct (span_digits s) as [ds' r'] eqn:E. injection H as <- <-.
      simpl. rewrite (IH ds' r' eq_refl). reflexivity.
    + injection H as <- <-. reflexivity.
Qed.

Lemma parse_chars_length (n : nat) : forall (s acc : list ascii) x r,
  (length s <= n)%nat -> parse_chars s acc = Some (x, r) ->
  (length r < length s)%nat.
Proof.
  induction n as [|n IH]; intros [|c s] acc x r Hn H; simpl in *;
    try discriminate; try lia.
  destruct (Ascii.eqb c dquote); [injection H as _ <-; lia|].
  destruct (Ascii.eqb c backslash).
  - destruct s as [|e s']; [discriminate|].
    destruct (simple_escape e).
    + apply IH in H; simpl in *; lia.
    + destruct (Ascii.eqb e "u"); [|discriminate].
      destruct s' as [|h1 [|h2 [|h3 [|h4 s'']]]]; try discriminate.
      destruct (hex4 h1 h2 h3 h4); [|discriminate].
      apply IH in H; simpl in *; lia.
  - destruct (nat_of_ascii c <? 32)%nat; [discriminate|].
    apply IH in H; simpl in *; lia.
Qed.

Lemma parse_number_shorter (s : list ascii) v r :
  parse_number s = Parsed v r -> (length r < length s)%nat.
Proof.
  unfold parse_number.
  destruct (parse_sign s) as [sg s1] eqn:Hsg.
  assert (length s1 <= length s)%nat as L1.
  { unfold parse_sign in Hsg. destruct s as [|c s'].
    - injection Hsg as _ <-. lia.
    - destruct (Ascii.eqb c "-"); injection Hsg as _ <-; simpl; lia. }
  destruct (parse_int_part s1) as [[ip s2]|] eqn:Hip; [|discriminate].
  assert (length s2 < length s1)%nat as L2.
  { unfold parse_int_part in Hip.
    destruct (span_digits s1) as [ds r0] eqn:E.
    apply span_digits_length in E.
    destruct ds as [|d ds]; [discriminate|].
    destruct (Ascii.eqb d "0").
    - destruct ds; [|discriminate]. injection Hip as _ <-. simpl in E. lia.
    - injection Hip as _ <-. simpl in E. lia. }
  destruct (parse_frac_part s2) as [[fp s3]|] eqn:Hfp; [|discriminate].
  assert (length s3 <= length s2)%nat as L3.
  { unfold parse_frac_part in Hfp. destruct s2 as [|c s2'].
    - injection Hfp as _ <-. lia.
    - destruct (Ascii.eqb c ".").
      + destruct (span_digits s2') as [ds r0] eqn:E.
        apply span_digits_length in E.
        destruct ds; [discriminate|]. injection Hfp as _ <-. simpl in *. lia.
      + injection Hfp as _ <-. lia. }
  destruct (parse_exp_part s3) as [[ex s4]|] eqn:Hex; [|discriminate].
  assert (length s4 <= length s3)%nat as L4.
  { unfold parse_exp_part in Hex. destruct s3 as [|c s3'].
    - injection Hex as _ <-. lia.
    - destruct (Ascii.eqb c "e" || Ascii.eqb c "E").
      + match type of Hex with
        | (let (_, _) := ?t in _) = _ => destruct t as [sg' r1] eqn:Hr1
        end.
        assert (length r1 <= length s3')%nat as L.
        { destruct s3' as [|x r0]; [injection Hr1 as _ <-; lia|].
          destruct (Ascii.eqb x "+"); [injection Hr1 as _ <-; simpl; lia|].
          destruct (Ascii.eqb x "-"); injection Hr1 as _ <-; simpl; lia. }
        destruct (span_digits r1) as [ds r0] eqn:E.
        apply span_digits_length in E.
        destruct ds; [discriminate|]. injection Hex as _ <-. simpl in *. lia.
      + injection Hex as _ <-. lia. }
  intros H. injection H as _ <-. lia.
Qed.

Lemma parse_number_fuel (s : list ascii) : parse_number s <> NoFuel.
Proof.
  unfold parse_number.
  destruct (parse_sign s) as [sg s1].
  destruct (parse_int_part s1) as [[ip s2]|]; [|discriminate].
  destruct (parse_frac_part s2) as [[fp s3]|]; [|discriminate].
  destruct (parse_exp_part s3) as [[ex s4]|]; discriminate.
Qed.

#[local] Arguments strip_prefix : simpl never.
#[local] Arguments parse_chars : simpl never.
#[local] Arguments parse_number : simpl never.
#[local] Arguments skip_ws : simpl never.

(** Case analysis on the tests and intermediate results of the parser. *)
Ltac parser_case :=
  match goal with
  | H : context [if ?b then _ else _] |- _ =>
      destruct b eqn:?; try discriminate
  | H : context [match ?x with _ => _ end] |- _ =>
      destruct x eqn:?; try discriminate
  | |- context [if ?b then _ else _] => destruct b eqn:?; try discriminate
  | |- context [match ?x with _ => _ end] => destruct x eqn:?; try discriminate
  end.

Ltac shorter_facts :=
  repeat match goal with
  | H : skip_ws _ = _ :: _ |- _ => apply skip_ws_cons in H
  | H : parse_chars _ _ = Some _ |- _ =>
      apply (parse_chars_length _ _ _ _ _ (Nat.le_refl _)) in H
  | H : strip_prefix _ _ = Some _ |- _ => apply strip_prefix_length in H
  | H : parse_number _ = Parsed _ _ |- _ => apply parse_number_shorter in H
  | H : Parsed _ _ = Parsed _ _ |- _ => injection H as ? ?; subst
  end.

(** A successful parse consumes at least one character. *)
Lemma parsed_shorter (fuel : nat) :
  (forall s v r, parse_value fuel s = Parsed v r -> (length r < length s)%nat) /\
  (forall s acc v r, parse_members fuel s acc = Parsed v r ->
                     (length r < length s)%nat) /\
  (forall s acc v r, parse_elements fuel s acc = Parsed v r ->
                     (length r < length s)%nat).
Proof.
  induction fuel as [|f (IHv & IHm & IHe)];
    [repeat split; intros; discriminate|].
  repeat split.
  - intros s v r H. simpl in H.
    repeat parser_case; shorter_facts; simpl in *; try lia;
      try (apply IHm in H); try (apply IHe in H); simpl in *; lia.
  - intros s acc v r H. simpl in H.
    repeat parser_case; shorter_facts;
      repeat match goal with
      | E : parse_value f _ = Parsed _ _ |- _ => apply IHv in E
      end;
      try (apply IHm in H); simpl in *; lia.
  - intros s acc v r H. simpl in H.
    repeat parser_case; shorter_facts;
      repeat match goal with
      | E : parse_value f _ = Parsed _ _ |- _ => apply IHv in E
      end;
      try (apply IHe in H); simpl in *; lia.
Qed.

Lemma parse_value_shorter fuel s v r :
  parse_value fuel s = Parsed v r -> (length r < length s)%nat.
Proof. apply parsed_shorter. Qed.

(** With two units of fuel per character, plus one, no call runs out. *)
Lemma fuel_enough (fuel : nat) :
  (forall s, (2 * length s + 1 <= fuel)%nat -> parse_value fuel s <> NoFuel) /\
  (forall s acc, (2 * length s + 2 <= fuel)%nat ->
                 parse_members fuel s acc <> NoFuel) /\
  (forall s acc, (2 * length s + 2 <= fuel)%nat ->
                 parse_elements fuel s acc <> NoFuel).
Proof.
  induction fuel as [|f (IHv & IHm & IHe)]; [repeat split; intros; lia|].
  repeat split.
  - intros s L. simpl.
    repeat parser_case; shorter_facts; try apply parse_number_fuel;
      try (apply IHm; simpl in *; lia); try (apply IHe; simpl in *; lia).
  - intros s acc L. simpl.
    repeat parser_case; shorter_facts;
      repeat match goal with
      | E : parse_value f _ = Parsed _ _ |- _ => apply parse_value_shorter in E
      | E : parse_value f ?x = NoFuel |- _ =>
          exfalso; revert E; apply IHv; simpl in *; lia
      end;
      try (apply IHm; simpl in *; lia).
  - intros s acc L. simpl.
    repeat parser_case; shorter_facts;
      repeat match goal with
      | E : parse_value f _ = Parsed _ _ |- _ => apply parse_value_shorter in E
      | E : parse_value f ?x = NoFuel |- _ =>
          exfalso; revert E; apply IHv; simpl in *; lia
      end;
      try (apply IHe; simpl in *; lia).
Qed.

(** [JSON_parse] returns a value or a syntax error. *)
Lemma JSON_parse_fuel_enough (text : string) : JSON_parse text <> OutOfFuel.
Proof.
  unfold JSON_parse.
  destruct (parse_value _ _) eqn:E; try discriminate.
  - destruct (skip_ws rest); discriminate.
  - exfalso; revert E. apply fuel_enough. lia.
Qed.

End ParserFacts.
Import ParserFacts.

(** ** The local fallback generator *)

Module GeneratorFacts.

(** The comparisons of [difficulty_at], over the integers. *)
Lemma num_lt_third (i n : Z) :
  num_lt (inject_Z i) (inject_Z n / 3)%Q = (3 * i <? n).
Proof.
  unfold num_lt, Qle_bool, Qdiv, Qmult, Qinv, inject_Z. simpl.
  destruct (3 * i <? n) eqn:E; [apply Z.ltb_lt in E | apply Z.ltb_ge in E].
  - apply negb_true_iff, Z.leb_gt. lia.
  - apply negb_false_iff, Z.leb_le. lia.
Qed.

Lemma num_lt_two_thirds (i n : Z) :
  num_lt (inject_Z i) (2 * inject_Z n / 3)%Q = (3 * i <? 2 * n).
Proof.
  unfold num_lt, Qle_bool, Qdiv, Qmult, Qinv, inject_Z. simpl.
  destruct (3 * i <? 2 * n) eqn:E; [apply Z.ltb_lt in E | apply Z.ltb_ge in E].
  - apply negb_true_iff, Z.leb_gt. lia.
  - apply negb_false_iff, Z.leb_le. lia.
Qed.

Lemma difficulty_at_bands (i n : Z) :
  difficulty_at i n =
    if 3 * i <? n then "easy" else if 3 * i <? 2 * n then "medium" else "hard".
Proof.
  unfold difficulty_at. rewrite num_lt_third, num_lt_two_thirds. reflexivity.
Qed.

Lemma loop_indices_length (n : Z) : length (loop_indices n) = Z.to_nat n.
Proof. apply length_seqZ. Qed.

Lemma loop_indices_lookup (n i : Z) :
  0 <= i < n -> loop_indices n !! Z.to_nat i = Some i.
Proof.
  intros H. unfold loop_indices.
  rewrite lookup_seqZ_lt by lia. f_equal. lia.
Qed.

Lemma fallback_question_lookup w topic (n i : Z) :
  0 <= i < n ->
  questions (generateFallbackQuiz w topic n) !! Z.to_nat i
  = Some (fallback_question topic n i).
Proof.
  intros H. simpl. rewrite list_lookup_fmap, loop_indices_lookup by lia.
  reflexivity.
Qed.

Lemma question_props_lookup (q : Question) :
  question_props q !! "question" = Some (JStr (question q)) /\
  question_props q !! "type" = Some (JStr (type q)) /\
  question_props q !! "answer" = Some (JStr (answer q)) /\
  question_props q !! "explanation" = Some (JStr (explanation q)) /\
  question_props q !! "difficulty" = Some (JStr (difficulty q)) /\
  question_props q !! "options" = (fun os => JArr (map JStr os)) <$> options q.
Proof.
  unfold question_props. destruct (options q); repeat split; reflexivity.
Qed.

Lemma quiz_props_lookup (q : Quiz) :
  quiz_props q !! "title" = Some (JStr (title q)) /\
  quiz_props q !! "total_questions" = Some (JInt (total_questions q)) /\
  quiz_props q !! "questions" = Some (JArr (map json_of_question (questions q))) /\
  quiz_props q !! "source" = Some (JStr (source q)) /\
  quiz_props q !! "generated_at" = Some (JStr (generated_at q)).
Proof. repeat split; reflexivity. Qed.

End GeneratorFacts.
Import GeneratorFacts.

(** ** Cleaning and matching provider text *)

Module StringFacts.

Lemma chars_app (a b : string) : chars (a +:+ b) = (chars a ++ chars b)%list.
Proof. induction a as [|c a IH]; simpl; [reflexivity | unfold chars in *; simpl; rewrite IH; reflexivity]. Qed.

Lemma str_chars (s : string) : str (chars s) = s.
Proof. apply string_of_list_ascii_of_string. Qed.

Lemma chars_str (l : list ascii) : chars (str l) = l.
Proof. apply list_ascii_of_string_of_list_ascii. Qed.

Lemma is_prefix_app (p s : list ascii) : is_prefix p (p ++ s)%list = true.
Proof.
  induction p as [|a p IH]; simpl; [reflexivity|].
  rewrite Ascii.eqb_refl. exact IH.
Qed.

(** Facts on the bytes of white space. *)
Ltac split_bools :=
  repeat match goal with
         | H : _ || _ = true |- _ => apply Bool.orb_prop in H; destruct H as [H|H]
         | H : _ && _ = true |- _ => apply andb_prop in H; destruct H
         | H : (_ =? _)%nat = true |- _ => apply Nat.eqb_eq in H
         | H : (_ <=? _)%nat = true |- _ => apply Nat.leb_le in H
         | H : (_ <? _)%nat = true |- _ => apply Nat.ltb_lt in H
         end.

Ltac space_bytes :=
  unfold plain, is_js_space, is_space2, is_space3 in *; cbv zeta in *;
  split_bools; apply Bool.not_true_iff_false; intro; split_bools; lia.

Lemma plain_not_space (c : ascii) : plain c = true -> is_js_space c = false.
Proof.
  unfold plain. intros H. apply andb_prop in H as [_ H].
  apply Bool.negb_true_iff in H. exact H.
Qed.

Lemma plain_not_space2 (c x : ascii) :
  plain c = true -> is_space2 c x = false /\ is_space2 x c = false.
Proof. intros H. split; space_bytes. Qed.

Lemma plain_not_space3 (c x y : ascii) :
  plain c = true -> is_space3 c x y = false /\ is_space3 y x c = false.
Proof. intros H. split; space_bytes. Qed.

Lemma space2_bytes (a b : ascii) :
  is_space2 a b = true -> is_js_space a = false /\ is_js_space b = false.
Proof. intros H. split; space_bytes. Qed.

Lemma space3_bytes (a b c : ascii) :
  is_space3 a b c = true ->
  is_js_space a = false /\ is_js_space c = false
  /\ is_space2 a b = false /\ is_space2 b c = false.
Proof. intros H. repeat split; space_bytes. Qed.

Lemma drop_front_plain two three (c : ascii) (r : list ascii) :
  is_js_space c = false -> (forall x, two c x = false) ->
  (forall x y, three c x y = false) ->
  drop_front two three (c :: r) = c :: r.
Proof.
  intros H1 H2 H3. simpl. rewrite H1.
  destruct r as [|x r]; [reflexivity|]. rewrite H2.
  destruct r as [|y r]; [reflexivity|]. rewrite H3. reflexivity.
Qed.

Lemma drop_spaces_plain (c : ascii) (r : list ascii) :
  plain c = true -> drop_spaces (c :: r) = c :: r.
Proof.
  intros H. apply drop_front_plain.
  - apply plain_not_space, H.
  - intros x. exact (proj1 (plain_not_space2 c x H)).
  - intros x y. exact (proj1 (plain_not_space3 c x y H)).
Qed.

Lemma drop_spaces_back_plain (c : ascii) (r : list ascii) :
  plain c = true -> drop_spaces_back (c :: r) = c :: r.
Proof.
  intros H. apply drop_front_plain.
  - apply plain_not_space, H.
  - intros x. exact (proj2 (plain_not_space2 c x H)).
  - intros x y. exact (proj2 (plain_not_space3 c x y H)).
Qed.

(** Leading white space is dropped, whatever follows it. *)
Lemma drop_spaces_blank (ws l : list ascii) :
  blank ws -> drop_spaces (ws ++ l) = drop_spaces l.
Proof.
  unfold drop_spaces.
  induction 1 as [|a ws Ha _ IH|a b ws Hab _ IH|a b c ws Habc _ IH]; simpl.
  - reflexivity.
  - rewrite Ha. exact IH.
  - destruct (space2_bytes a b Hab) as [-> _]. rewrite Hab. exact IH.
  - destruct (space3_bytes a b c Habc) as (-> & _ & -> & _). rewrite Habc.
    exact IH.
Qed.

(** Trailing white space is dropped, whatever precedes it. *)
Lemma drop_spaces_back_blank (ws l : list ascii) :
  blank ws -> drop_spaces_back (rev ws ++ l) = drop_spaces_back l.
Proof.
  unfold drop_spaces_back. intros B. revert l.
  induction B as [|a ws Ha _ IH|a b ws Hab _ IH|a b c ws Habc _ IH];
    intros l; simpl.
  - reflexivity.
  - rewrite <- app_assoc, IH. simpl. rewrite Ha. reflexivity.
  - rewrite <- !app_assoc, IH. simpl.
    destruct (space2_bytes a b Hab) as [_ ->]. rewrite Hab. reflexivity.
  - rewrite <- !app_assoc, IH. simpl.
    destruct (space3_bytes a b c Habc) as (_ & -> & _ & ->). rewrite Habc.
    reflexivity.
Qed.

(** What is dropped is at the front. *)
Lemma drop_front_suffix two three (l : list ascii) :
  exists ws, l = (ws ++ drop_front two three l)%list.
Proof.
  remember (length l) as n eqn:N. revert l N.
  induction n as [n IH] using lt_wf_ind. intros l N.
  destruct l as [|a r]; [exists []; reflexivity|]. simpl.
  destruct (is_js_space a).
  { destruct (IH (length r) ltac:(simpl in N; lia) r eq_refl) as (ws & E).
    exists (a :: ws). simpl. f_equal. exact E. }
  destruct r as [|b r]; [exists []; reflexivity|].
  destruct (two a b).
  { destruct (IH (length r) ltac:(simpl in N; lia) r eq_refl) as (ws & E).
    exists (a :: b :: ws). simpl. do 2 f_equal. exact E. }
  destruct r as [|c r]; [exists []; reflexivity|].
  destruct (three a b c).
  { destruct (IH (length r) ltac:(simpl in N; lia) r eq_refl) as (ws & E).
    exists (a :: b :: c :: ws). simpl. do 3 f_equal. exact E. }
  exists []. reflexivity.
Qed.

(** A text that begins and ends with ASCII characters other than white
    space is its own [trim]. *)
Lemma trim_stable (c d : ascii) (m : list ascii) :
  plain c = true -> plain d = true ->
  trim (str (c :: m ++ [d])%list) = str (c :: m ++ [d])%list.
Proof.
  intros Hc Hd. unfold trim. rewrite chars_str. f_equal.
  rewrite drop_spaces_plain by exact Hc.
  change (c :: m ++ [d])%list with ((c :: m) ++ [d])%list.
  rewrite rev_app_distr.
  change (rev [d] ++ rev (c :: m))%list with (d :: rev (c :: m))%list.
  rewrite drop_spaces_back_plain by exact Hd.
  change (rev (d :: rev (c :: m))) with (rev (rev (c :: m)) ++ [d])%list.
  rewrite rev_involutive. reflexivity.
Qed.

(** White space around a text that begins and ends with ASCII characters
    other than white space is what [trim] removes. *)
Lemma trim_padded (ws ws' m : list ascii) (c d : ascii) :
  blank ws -> blank ws' -> plain c = true -> plain d = true ->
  trim (str (ws ++ (c :: m ++ [d]) ++ ws')) = str (c :: m ++ [d]).
Proof.
  intros B B' Hc Hd. unfold trim. rewrite chars_str. f_equal.
  rewrite drop_spaces_blank by exact B.
  change ((c :: m ++ [d]) ++ ws')%list with (c :: (m ++ [d]) ++ ws')%list.
  rewrite drop_spaces_plain by exact Hc.
  change (c :: (m ++ [d]) ++ ws')%list with ((c :: m ++ [d]) ++ ws')%list.
  rewrite rev_app_distr, drop_spaces_back_blank by exact B'.
  change (c :: m ++ [d])%list with ((c :: m) ++ [d])%list.
  rewrite rev_app_distr.
  change (rev [d] ++ rev (c :: m))%list with (d :: rev (c :: m))%list.
  rewrite drop_spaces_back_plain by exact Hd.
  change (rev (d :: rev (c :: m))) with (rev (rev (c :: m)) ++ [d])%list.
  rewrite rev_involutive. reflexivity.
Qed.

(** What [trim] returns lies inside its argument. *)
Lemma trim_inside (s : string) :
  exists ws ws', chars s = (ws ++ chars (trim s) ++ ws')%list.
Proof.
  unfold trim. rewrite chars_str.
  destruct (drop_front_suffix is_space2 is_space3 (chars s)) as (ws & E).
  destruct (drop_front_suffix (fun a b => is_space2 b a)
              (fun a b c => is_space3 c b a) (rev (drop_spaces (chars s))))
    as (ws' & E').
  exists ws, (rev ws'). fold (drop_spaces (chars s)) in E.
  rewrite E at 1. f_equal.
  rewrite <- (rev_involutive (drop_spaces (chars s))) at 1.
  rewrite E' at 1. rewrite rev_app_distr. reflexivity.
Qed.

Lemma length_chars (s : string) : String.length s = length (chars s).
Proof. induction s; simpl; congruence. Qed.

Lemma startsWith_app (p s : string) : startsWith (p +:+ s) p = true.
Proof. unfold startsWith. rewrite chars_app. apply is_prefix_app. Qed.

Lemma substring_from_app (p s : string) :
  substring_from (String.length p) (p +:+ s) = s.
Proof.
  unfold substring_from. rewrite chars_app, length_chars, drop_app_length.
  apply str_chars.
Qed.

Lemma endsWith_app (s p : string) : endsWith (s +:+ p) p = true.
Proof. unfold endsWith. rewrite chars_app, rev_app_distr. apply is_prefix_app. Qed.

Lemma substring_to_app (s p : string) :
  substring_to (String.length (s +:+ p) - String.length p) (s +:+ p) = s.
Proof.
  unfold substring_to. rewrite !length_chars, chars_app, length_app.
  replace (length (chars s) + length (chars p) - length (chars p))%nat
    with (length (chars s)) by lia.
  rewrite take_app_length. apply str_chars.
Qed.

(** A text that does not begin with a prefix of a marker does not begin with
    the marker. *)
Lemma is_prefix_shorter (p q s : list ascii) :
  is_prefix p s = false -> is_prefix (p ++ q) s = false.
Proof.
  revert s. induction p as [|a p IH]; intros s; simpl; [discriminate|].
  destruct s as [|b s]; [reflexivity|].
  destruct (Ascii.eqb a b); [apply IH | reflexivity].
Qed.

Lemma startsWith_fence (t : string) :
  startsWith t "```" = false -> startsWith t "```json" = false.
Proof. apply (is_prefix_shorter (chars "```") (chars "json")). Qed.

(** The clean-up of a text, by the markers its trimmed text has: the leading
    marker and then the trailing one, the trailing one alone, or none. *)
Lemma cleanText_leading (text rest : string) :
  trim text = "```json" +:+ rest ->
  (forall inner, rest = inner +:+ "```" -> cleanText text = inner) /\
  (endsWith rest "```" = false -> cleanText text = rest).
Proof.
  intros E. unfold cleanText. rewrite E, startsWith_app.
  change 7%nat with (String.length "```json"). rewrite substring_from_app.
  split.
  - intros inner ->. rewrite endsWith_app.
    apply (substring_to_app inner "```").
  - intros ->. reflexivity.
Qed.

Lemma cleanText_unfenced (text : string) :
  startsWith (trim text) "```" = false ->
  (forall body, trim text = body +:+ "```" -> cleanText text = body) /\
  (endsWith (trim text) "```" = false -> cleanText text = trim text).
Proof.
  intros S. apply startsWith_fence in S. unfold cleanText. rewrite S.
  split.
  - intros body ->. rewrite endsWith_app.
    apply (substring_to_app body "```").
  - intros ->. reflexivity.
Qed.

(** A text fenced by [```json] and [```] is cleaned to what is in between. *)
Lemma cleanText_fenced (inner : string) :
  cleanText ("```json" +:+ inner +:+ "```") = inner.
Proof.
  set (f := "```json" +:+ inner +:+ "```").
  assert (trim f = f) as T.
  { assert (f = str ("`"%char :: (chars ("``json" +:+ inner +:+ "``")) ++ ["`"%char])%list) as ->.
    { unfold f. rewrite <- (str_chars (_ +:+ _)). f_equal.
      rewrite !chars_app. simpl. rewrite <- !app_assoc. reflexivity. }
    apply trim_stable; reflexivity. }
  unfold cleanText. rewrite T.
  assert (chars f = (chars "```json" ++ chars inner ++ chars "```")%list) as C.
  { unfold f. rewrite !chars_app. reflexivity. }
  unfold startsWith. rewrite C, is_prefix_app.
  unfold substring_from. rewrite C. 
  change (drop 7 (chars "```json" ++ chars inner ++ chars "```")%list) with (chars inner ++ chars "```")%list.
  unfold endsWith. rewrite chars_str, rev_app_distr, is_prefix_app.
  unfold substring_to. rewrite chars_str.
  replace (String.length (str (chars inner ++ chars "```")%list) - 3)%nat with (length (chars inner)).
  - rewrite take_app_length. apply str_chars.
  - assert (forall l, String.length (str l) = length l) as L.
    { induction l; simpl; congruence. }
    rewrite L, length_app. simpl. lia.
Qed.

Lemma drop_until_split (c : ascii) (s : list ascii) :
  (drop_until c s = [] /\ ~ In c s) \/
  (exists pre r, s = (pre ++ c :: r)%list /\ ~ In c pre /\ drop_until c s = c :: r).
Proof.
  induction s as [|x s IH]; simpl; [left; tauto|].
  destruct (Ascii.eqb x c) eqn:E.
  - apply Ascii.eqb_eq in E. subst x. right. exists [], s. simpl. tauto.
  - apply Ascii.eqb_neq in E. destruct IH as [[H1 H2]|(pre & r & -> & H2 & H3)].
    + left. split; [exact H1|]. intros [?|?]; [congruence | tauto].
    + right. exists (x :: pre), r. simpl. repeat split; [|exact H3].
      intros [?|?]; [congruence | tauto].
Qed.

(** The match of the brace expression runs from the first opening brace of
    the text to its last closing brace. *)
Lemma match_braces_span (text span : string) :
  match_braces text = Some span ->
  exists pre mid post,
    chars text = (pre ++ chars span ++ post)%list /\
    chars span = ("{"%char :: mid ++ ["}"%char])%list /\
    ~ In "{"%char pre /\ ~ In "}"%char post.
Proof.
  unfold match_braces.
  destruct (drop_until_split "{" (chars text)) as [[-> _]|(pre & r & E & Hpre & ->)];
    [discriminate|].
  destruct (drop_until_split "}" (rev r)) as [[-> _]|(post' & inner & E' & Hpost & ->)];
    [discriminate|].
  intros H. injection H as <-. 
  exists pre, (rev inner), (rev post').
  change (chars (String "{" (str (rev inner ++ ["}"%char]))))
    with ("{"%char :: chars (str (rev inner ++ ["}"%char]))).
  rewrite chars_str. repeat split.
  - rewrite E. f_equal. simpl. f_equal.
    rewrite <- (rev_involutive r), E', rev_app_distr. simpl.
    rewrite <- app_assoc. reflexivity.
  - exact Hpre.
  - rewrite <- in_rev. exact Hpost.
Qed.

End StringFacts.
Import StringFacts.

(** ** The adapters and the chain *)

Module HandlerFacts.

Lemma pure_ret {A} (a : A) : pure (ret a).
Proof. intros s. reflexivity. Qed.

Lemma pure_throw {A} (e : exn) : pure (@throw A e).
Proof. intros s. reflexivity. Qed.

Lemma pure_bind {A B} (m : M A) (k : A -> M B) :
  pure m -> (forall a, pure (k a)) -> pure (bind m k).
Proof.
  intros Hm Hk s. unfold bind. specialize (Hm s).
  destruct (m s) as [[a|e] s']; simpl in *; subst; [apply Hk | reflexivity].
Qed.

Lemma pure_get v k : pure (get v k).
Proof. destruct v as [[]|]; simpl; first [apply pure_ret | apply pure_throw]. Qed.

Lemma pure_response_json r : pure (response_json r).
Proof.
  unfold response_json. destruct (body r); [apply pure_ret | apply pure_throw].
Qed.

Lemma pure_JSON_parse_M text : pure (JSON_parse_M text).
Proof.
  unfold JSON_parse_M.
  destruct (JSON_parse text); first [apply pure_ret | apply pure_throw].
Qed.

Lemma pure_set_property v k x : pure (set_property v k x).
Proof. destruct v; simpl; first [apply pure_ret | apply pure_throw]. Qed.

Ltac solve_pure :=
  repeat first
    [ apply pure_ret | apply pure_throw | apply pure_get
    | apply pure_response_json | apply pure_JSON_parse_M
    | apply pure_set_property
    | apply pure_bind; [|intros ?]
    | case_match ].

(** A fetch followed by computations that leave the state alone records
    exactly that fetch. *)
Lemma fetch_then_pure {A} w e (k : response -> M A) (s : state) :
  (forall r, pure (k r)) ->
  snd (bind (fetch w e) k s) = record_fetch e s.
Proof.
  intros Hk. unfold bind, fetch.
  destruct (net w (length (fetches s)) e); simpl; [reflexivity | apply Hk].
Qed.

Lemma try_catch_frame {A} (m : M A) (h : exn -> M A) (f : state -> state) :
  (forall s, snd (m s) = f s) -> (forall e, pure (h e)) ->
  forall s, snd (try_catch m h s) = f s.
Proof.
  intros Hm Hh s. unfold try_catch. specialize (Hm s).
  destruct (m s) as [[a|e] s']; simpl in *; subst; [reflexivity | apply Hh].
Qed.

(** Whatever it returns, the Gemini adapter makes one fetch and touches
    neither the console nor the response. *)
Lemma gemini_frame w apiKey topic n (s : state) :
  snd (generateQuizWithGemini w apiKey topic n s)
  = record_fetch (GeminiGenerateContent apiKey) s.
Proof.
  unfold generateQuizWithGemini. apply fetch_then_pure. intros r. solve_pure.
Qed.

(** So does the Hugging Face adapter. *)
Lemma hugging_face_frame w topic n (s : state) :
  snd (generateQuizWithHuggingFace w topic n s)
  = record_fetch HuggingFaceInference s.
Proof.
  unfold generateQuizWithHuggingFace. revert s. apply try_catch_frame.
  - intros s. apply fetch_then_pure. intros r. solve_pure.
  - intros e. apply pure_throw.
Qed.

(** The chain always returns a quiz value, along one of the three ways. *)
Lemma generate_chain w apiKey topic n (s : state) :
  exists quiz s', generate w apiKey topic n s = (Val quiz, s')
                  /\ chain_run w apiKey topic n s quiz s'.
Proof.
  unfold generate, try_catch at 1, bind at 1.
  pose proof (gemini_frame w apiKey topic n s) as F1.
  destruct (generateQuizWithGemini w apiKey topic n s) as [[q|e] s1] eqn:G;
    simpl in F1; subst s1.
  - eexists _, _. split; [reflexivity|]. apply ByGemini. rewrite G. reflexivity.
  - unfold bind at 1, console_error at 1.
    unfold try_catch at 1, bind at 1, generateQuizWithOpenAI, throw at 1.
    unfold bind at 1, console_error at 1.
    set (s2 := record_line _ (record_line _ _)).
    unfold try_catch at 1, bind at 1.
    pose proof (hugging_face_frame w topic n s2) as F2.
    destruct (generateQuizWithHuggingFace w topic n s2) as [[q|e'] s3] eqn:H;
      simpl in F2; subst s3.
    + eexists _, _. split; [reflexivity|].
      eapply ByHuggingFace; [rewrite G; reflexivity | reflexivity |].
      fold s2. rewrite H. reflexivity.
    + eexists _, _. split; [reflexivity|].
      eapply ByFallback; [rewrite G; reflexivity | reflexivity |].
      fold s2. rewrite H. reflexivity.
Qed.

#[local] Arguments JSON_parse : simpl never.
#[local] Arguments cleanText : simpl never.

Lemma gemini_outcome w key topic n s r text :
  net w (length (fetches s)) (GeminiGenerateContent key) = Resolves r ->
  ok r = true -> body r = Some (gemini_body text) ->
  generateQuizWithGemini w key topic n s
  = (gemini_result w topic text, record_fetch (GeminiGenerateContent key) s).
Proof.
  intros Hnet Hok Hbody.
  unfold generateQuizWithGemini, bind at 1, fetch. rewrite Hnet, Hok. simpl.
  unfold bind at 1, response_json. rewrite Hbody. simpl.
  unfold bind, JSON_parse_M, gemini_result. unfold gemini_body.
  repeat (rewrite lookup_singleton_eq; simpl).
  destruct (JSON_parse (cleanText text)) as [[]| |]; reflexivity.
Qed.

Lemma hugging_face_outcome w topic n s r text :
  net w (length (fetches s)) HuggingFaceInference = Resolves r ->
  ok r = true ->
  body r = Some (JArr [ JObj {[ "generated_text" := JStr text ]} ]) ->
  text <> "" ->
  generateQuizWithHuggingFace w topic n s
  = (hugging_face_result w topic n text, record_fetch HuggingFaceInference s).
Proof.
  intros Hnet Hok Hbody Htext.
  unfold generateQuizWithHuggingFace, try_catch, bind at 1, fetch.
  rewrite Hnet, Hok. simpl.
  unfold bind at 1, response_json. rewrite Hbody. simpl.
  unfold bind, ret. simpl. rewrite lookup_singleton_eq. simpl.
  rewrite (proj2 (String.eqb_neq _ _) Htext). simpl.
  unfold hugging_face_result, JSON_parse_M.
  destruct (match_braces text); [|reflexivity].
  destruct (JSON_parse _); reflexivity.
Qed.

(** Hugging Face answers with a generated text in which the brace expression
    finds a span that parses: the adapter returns the parsed value as it is. *)
Lemma hugging_face_returns_parsed w topic n s r text span v :
  net w (length (fetches s)) HuggingFaceInference = Resolves r ->
  ok r = true ->
  body r = Some (JArr [ JObj {[ "generated_text" := JStr text ]} ]) ->
  text <> "" ->
  match_braces text = Some span ->
  JSON_parse span = ParseOk v ->
  generateQuizWithHuggingFace w topic n s
  = (Val v, record_fetch HuggingFaceInference s).
Proof.
  intros Hnet Hok Hbody Htext Hspan Hparse.
  rewrite (hugging_face_outcome w topic n s r text Hnet Hok Hbody Htext).
  unfold hugging_face_result. rewrite Hspan, Hparse. reflexivity.
Qed.

(** The result of an adapter depends on the state it starts from through
    the number of fetches made before only. *)
Lemma stateless_ret {A} (a : A) : stateless (ret a).
Proof. intros s1 s2. reflexivity. Qed.

Lemma stateless_throw {A} (e : exn) : stateless (@throw A e).
Proof. intros s1 s2. reflexivity. Qed.

Lemma stateless_bind {A B} (m : M A) (k : A -> M B) :
  stateless m -> pure m -> (forall a, stateless (k a)) -> stateless (bind m k).
Proof.
  intros Hm Pm Hk s1 s2. unfold bind.
  specialize (Hm s1 s2). pose proof (Pm s1) as P1. pose proof (Pm s2) as P2.
  destruct (m s1) as [[a|e] s1'], (m s2) as [[a'|e'] s2']; simpl in *;
    try discriminate; injection Hm as <-; [apply Hk | reflexivity].
Qed.

Lemma stateless_get v k : stateless (get v k).
Proof.
  destruct v as [[]|]; simpl; first [apply stateless_ret | apply stateless_throw].
Qed.

Lemma stateless_response_json r : stateless (response_json r).
Proof.
  unfold response_json.
  destruct (body r); [apply stateless_ret | apply stateless_throw].
Qed.

Lemma stateless_JSON_parse_M text : stateless (JSON_parse_M text).
Proof.
  unfold JSON_parse_M.
  destruct (JSON_parse text); first [apply stateless_ret | apply stateless_throw].
Qed.

Lemma stateless_set_property v k x : stateless (set_property v k x).
Proof.
  destruct v; simpl; first [apply stateless_ret | apply stateless_throw].
Qed.

Ltac solve_stateless :=
  repeat first
    [ apply stateless_ret | apply stateless_throw | apply stateless_get
    | apply stateless_response_json | apply stateless_JSON_parse_M
    | apply stateless_set_property
    | apply pure_get | apply pure_response_json | apply pure_JSON_parse_M
    | apply pure_set_property
    | apply stateless_bind; [| |intros ?]
    | case_match ].

(** The result of a fetch followed by stateless computations depends on the
    state through the number of fetches made before only. *)
Lemma fetch_then_stateless {A} w e (k : response -> M A) (s1 s2 : state) :
  (forall r, stateless (k r)) ->
  length (fetches s1) = length (fetches s2) ->
  fst (bind (fetch w e) k s1) = fst (bind (fetch w e) k s2).
Proof.
  intros Hk L. unfold bind, fetch. rewrite L.
  destruct (net w (length (fetches s2)) e); simpl; [reflexivity | apply Hk].
Qed.

Lemma gemini_result_by_fetch_count w key topic n (s1 s2 : state) :
  length (fetches s1) = length (fetches s2) ->
  fst (generateQuizWithGemini w key topic n s1)
  = fst (generateQuizWithGemini w key topic n s2).
Proof.
  intros L. unfold generateQuizWithGemini.
  apply fetch_then_stateless; [|exact L]. intros r. solve_stateless.
Qed.

Lemma try_catch_by_result {A} (m : M A) (h : exn -> M A) (s1 s2 : state) :
  fst (m s1) = fst (m s2) -> (forall e, stateless (h e)) ->
  fst (try_catch m h s1) = fst (try_catch m h s2).
Proof.
  intros E Hh. unfold try_catch.
  destruct (m s1) as [[a|e] s1'], (m s2) as [[a'|e'] s2']; simpl in *;
    try discriminate; injection E as <-; [reflexivity | apply Hh].
Qed.

Lemma hugging_face_result_by_fetch_count w topic n (s1 s2 : state) :
  length (fetches s1) = length (fetches s2) ->
  fst (generateQuizWithHuggingFace w topic n s1)
  = fst (generateQuizWithHuggingFace w topic n s2).
Proof.
  intros L. unfold generateQuizWithHuggingFace.
  apply try_catch_by_result; [|intros e; apply stateless_throw].
  apply fetch_then_stateless; [|exact L]. intros r. solve_stateless.
Qed.

(** The fetches of a run of the chain: Gemini alone, or Gemini and then
    Hugging Face; no endpoint is asked twice. *)
Lemma chain_run_fetches w key topic n s quiz s' :
  chain_run w key topic n s quiz s' ->
  fetches s' = (fetches s ++ [GeminiGenerateContent key])%list \/
  fetches s' = (fetches s ++ [GeminiGenerateContent key; HuggingFaceInference])%list.
Proof.
  intros [q H | e s2 q H -> H2 | e s2 e' H -> H2]; simpl.
  - left. reflexivity.
  - right. rewrite <- app_assoc. reflexivity.
  - right. rewrite <- app_assoc. reflexivity.
Qed.

#[local] Arguments generate : simpl never.

(** A POST request that carries a key and a topic runs the chain and answers
    200 with the quiz the chain returns. *)
Lemma serve_post w key topic (count : option Z) :
  key <> "" -> topic <> "" ->
  exists quiz s',
    chain_run w key topic (default 10 count) after_headers quiz s' /\
    serve w {| method := "POST";
               req_body := Some {| api_key := Some key; topic := Some topic;
                                   num_questions := count |} |}
    = answered 200 quiz s'.
Proof.
  intros Hk Ht.
  destruct (generate_chain w key topic (default 10 count) after_headers)
    as (quiz & s' & G & C).
  exists quiz, s'. split; [exact C|].
  unfold serve, handler. simpl.
  unfold bind, try_catch, setHeader, update_res. simpl.
  rewrite (proj2 (String.eqb_neq _ _) Hk), (proj2 (String.eqb_neq _ _) Ht).
  fold after_headers. rewrite G. reflexivity.
Qed.

(** A POST request without a topic is answered 400 before any fetch. *)
Lemma serve_without_topic w (k t : option string) (c : option Z) :
  missing t = true ->
  let s := serve w {| method := "POST";
                      req_body := Some {| api_key := k; topic := t;
                                          num_questions := c |} |} in
  fetches s = [] /\ console s = [] /\ code (res s) = Some 400 /\
  payload (res s) = Some (error_body (if missing k then "API key is required"
                                      else "Topic is required")).
Proof.
  intros Ht. unfold serve, handler. simpl.
  unfold bind, try_catch, setHeader, update_res. simpl.
  destruct (missing k); simpl; [repeat split|].
  rewrite Ht. repeat split.
Qed.

(** Gemini answers with the usual envelope around [text]: when its adapter
    returns a value the request is answered with it and no other adapter is
    tried; when it throws, the chain goes on to Hugging Face. *)
Lemma serve_gemini_answer w key topic count text :
  key <> "" -> topic <> "" ->
  gemini_answers w key text ->
  match gemini_result w topic text with
  | Val quiz =>
      serve w (post key topic count)
      = answered 200 quiz
          (record_line (ConsoleLog "✅ Generated quiz with Gemini API")
             (record_fetch (GeminiGenerateContent key) after_headers))
  | Exc _ =>
      fetches (serve w (post key topic count))
      = [GeminiGenerateContent key; HuggingFaceInference]
  end.
Proof.
  intros Hk Ht (r & Hnet & Hok & Hbody).
  destruct (serve_post w key topic (Some count) Hk Ht) as (quiz & s' & C & E).
  unfold post. rewrite E. clear E.
  pose proof (gemini_outcome w key topic count after_headers r text
                Hnet Hok Hbody) as G.
  simpl in C.
  destruct C as [q H | e s2 q H -> _ | e s2 e' H -> _]; rewrite G in H;
    simpl in H; rewrite H; reflexivity.
Qed.

(** Gemini answers with a text that cleans and parses to an object: the
    request is answered with that object and the metadata, and no other
    adapter is tried. *)
Lemma serve_gemini_object w key topic count text o :
  key <> "" -> topic <> "" ->
  gemini_answers w key text ->
  JSON_parse (cleanText text) = ParseOk (JObj o) ->
  serve w (post key topic count)
  = answered 200
      (JObj (<["generated_at" := JStr (now w)]>
            (<["source" := JStr ("AI analysis of " +:+ topic)]> o)))
      (record_line (ConsoleLog "✅ Generated quiz with Gemini API")
         (record_fetch (GeminiGenerateContent key) after_headers)).
Proof.
  intros Hk Ht Hg Hparse.
  pose proof (serve_gemini_answer w key topic count text Hk Ht Hg) as H.
  unfold gemini_result in H. rewrite Hparse in H. exact H.
Qed.

(** Gemini is unreachable and Hugging Face generates a text whose brace span
    parses: the request is answered with the parsed value as it is. *)
Lemma serve_hugging_face_parsed w key topic count text span v :
  key <> "" -> topic <> "" ->
  net w 0 (GeminiGenerateContent key) = Rejects ->
  hugging_face_answers w text ->
  text <> "" ->
  match_braces text = Some span ->
  JSON_parse span = ParseOk v ->
  let s := serve w (post key topic count) in
  code (res s) = Some 200 /\ payload (res s) = Some v /\
  fetches s = [GeminiGenerateContent key; HuggingFaceInference] /\
  last (console s) = Some (ConsoleLog "✅ Generated quiz with Hugging Face API").
Proof.
  intros Hk Ht Hg (r & Hnet & Hok & Hbody) Htext Hspan Hparse.
  destruct (serve_post w key topic (Some count) Hk Ht) as (quiz & s' & C & E).
  unfold post. rewrite E. clear E.
  simpl in C.
  destruct C as [q H | e s2 q H -> H2 | e s2 e' H -> H2].
  - unfold generateQuizWithGemini, bind, fetch in H. simpl in H.
    rewrite Hg in H. discriminate.
  - match type of H2 with
    | fst (generateQuizWithHuggingFace _ _ _ ?s0) = _ =>
        rewrite (hugging_face_returns_parsed w topic count s0 r text span v
                   Hnet Hok Hbody Htext Hspan Hparse) in H2
    end.
    injection H2 as <-. repeat split.
  - match type of H2 with
    | fst (generateQuizWithHuggingFace _ _ _ ?s0) = _ =>
        rewrite (hugging_face_returns_parsed w topic count s0 r text span v
                   Hnet Hok Hbody Htext Hspan Hparse) in H2
    end.
    discriminate.
Qed.

(** Without the chain, a failure of Gemini is the answer: the Gemini-only
    copy of the endpoint answers 500 when the fetch gets no response. *)
Lemma gemini_only_surfaces_failure :
  res (snd (handler_gemini_only offline (post "k" "Math" 3) initial))
  = {| headers := [ ("Access-Control-Allow-Origin", "*");
                    ("Access-Control-Allow-Methods", "POST, OPTIONS");
                    ("Access-Control-Allow-Headers", "Content-Type") ];
       code := Some 500;
       payload := Some (error_body "Failed to generate quiz: engine error");
       ended := true |}.
Proof. vm_compute. reflexivity. Qed.

End HandlerFacts.
Import HandlerFacts.

(** ** The fallback quiz meets the schema *)

Module SchemaFacts.

Lemma difficulty_at_among (i n : Z) :
  existsb (String.eqb (difficulty_at i n)) ["easy"; "medium"; "hard"] = true.
Proof.
  rewrite difficulty_at_bands.
  destruct (3 * i <? n); [reflexivity|].
  destruct (3 * i <? 2 * n); reflexivity.
Qed.

Lemma fallback_question_schema topic (n i : Z) :
  schema_question (json_of_question (fallback_question topic n i)) = true.
Proof.
  unfold schema_question, json_of_question.
  destruct (question_props_lookup (fallback_question topic n i))
    as (-> & -> & -> & -> & -> & ->).
  assert (difficulty (fallback_question topic n i) = difficulty_at i n) as ->.
  { unfold fallback_question. destruct (i mod 2 =? 0); reflexivity. }
  unfold string_among. rewrite difficulty_at_among.
  unfold fallback_question. destruct (i mod 2 =? 0); simpl.
  - rewrite String.eqb_refl. reflexivity.
  - destruct topic; reflexivity.
Qed.

Lemma fallback_meets_schema w topic (n : Z) :
  1 <= n -> schema_quiz (json_of_quiz (generateFallbackQuiz w topic n)) = true.
Proof.
  intros H. unfold schema_quiz, json_of_quiz.
  destruct (quiz_props_lookup (generateFallbackQuiz w topic n))
    as (-> & -> & -> & -> & ->).
  cbn [title total_questions questions source generated_at generateFallbackQuiz
       JInt is_string andb].
  rewrite !length_map, loop_indices_length.
  repeat (apply andb_true_intro; split); try reflexivity.
  - destruct topic; reflexivity.
  - apply Nat.leb_le. lia.
  - rewrite forallb_forall. intros q Hq.
    apply in_map_iff in Hq as (x & <- & Hx).
    apply in_map_iff in Hx as (i & <- & _).
    apply fallback_question_schema.
  - unfold number_is. simpl. apply Z.eqb_eq. lia.
Qed.

End SchemaFacts.
Import SchemaFacts.

(** ** The claims about the fallback generator *)

(** C7, as amended.  The band boundaries of the fallback generator are
    [count / 3] and [2 * count / 3] taken exactly, not by floor division: the
    question at index [i] is easy when [3 * i < count], medium when
    [count <= 3 * i < 2 * count] and hard when [2 * count <= 3 * i]; so index
    [i] is easy exactly below the ceiling of [count / 3] and hard exactly from
    the ceiling of [2 * count / 3] on, and the items beyond three equal bands
    go to the easy band first, never to the hard band.  For a count of 9,
    indices 0-2 are easy, 3-5 medium, 6-8 hard. *)
Theorem fallback_difficulty_bands (w : world) (topic : string) (count i : Z) :
  0 <= i < count ->
  exists q,
    questions (generateFallbackQuiz w topic count) !! Z.to_nat i = Some q /\
    difficulty q =
      (if 3 * i <? count then "easy"
       else if 3 * i <? 2 * count then "medium" else "hard") /\
    (difficulty q = "easy" <-> i < (count + 2) / 3) /\
    (difficulty q = "hard" <-> (2 * count + 2) / 3 <= i) /\
    map difficulty (questions (generateFallbackQuiz w topic 9))
    = ["easy"; "easy"; "easy"; "medium"; "medium"; "medium";
       "hard"; "hard"; "hard"].
Proof.
  intros H. exists (fallback_question topic count i).
  split; [apply fallback_question_lookup; lia|].
  assert (difficulty (fallback_question topic count i) = difficulty_at i count) as D.
  { unfold fallback_question. destruct (i mod 2 =? 0); reflexivity. }
  rewrite D, difficulty_at_bands.
  pose proof (Z.div_mod (count + 2) 3 ltac:(lia)) as E1.
  pose proof (Z.mod_pos_bound (count + 2) 3 ltac:(lia)) as B1.
  pose proof (Z.div_mod (2 * count + 2) 3 ltac:(lia)) as E2.
  pose proof (Z.mod_pos_bound (2 * count + 2) 3 ltac:(lia)) as B2.
  repeat split.
  - destruct (3 * i <? count) eqn:L; [apply Z.ltb_lt in L; lia|].
    destruct (3 * i <? 2 * count); discriminate.
  - intros L. destruct (3 * i <? count) eqn:L'; [reflexivity|].
    apply Z.ltb_ge in L'. lia.
  - destruct (3 * i <? count) eqn:L; [discriminate|].
    destruct (3 * i <? 2 * count) eqn:L2; [discriminate|].
    apply Z.ltb_ge in L2. lia.
  - intros L. destruct (3 * i <? count) eqn:L1; [apply Z.ltb_lt in L1; lia|].
    destruct (3 * i <? 2 * count) eqn:L2; [apply Z.ltb_lt in L2; lia|].
    reflexivity.
Qed.

Lemma fallback_difficulty_bands_witness :
  exists q,
    questions (generateFallbackQuiz offline "Math" 10) !! Z.to_nat 3 = Some q /\
    difficulty q = "easy".
Proof.
  destruct (fallback_difficulty_bands offline "Math" 10 3 ltac:(lia))
    as (q & Hq & Hd & _).
  exists q. split; [exact Hq | exact Hd].
Defined.

(** C7 as stated fails: with a count of 10 the generator makes index 3 easy,
    where bands by floor division make it medium, and it produces four easy,
    three medium and three hard questions, so the item beyond three equal
    bands is easy, not hard. *)
Lemma fallback_difficulty_not_by_floor :
  map difficulty (questions (generateFallbackQuiz offline "Math" 10))
  = ["easy"; "easy"; "easy"; "easy"; "medium"; "medium"; "medium";
     "hard"; "hard"; "hard"] /\
  map (fun i => difficulty_by_floor i 10) (loop_indices 10)
  = ["easy"; "easy"; "easy"; "medium"; "medium"; "medium";
     "hard"; "hard"; "hard"; "hard"] /\
  difficulty <$> questions (generateFallbackQuiz offline "Math" 10) !! 3%nat
  <> Some (difficulty_by_floor 3 10).
Proof.
  repeat split; try reflexivity. vm_compute. discriminate.
Qed.

(** C9.  For every topic and every count of at least 1, the fallback
    generator produces at least one question; each of its questions is
    multiple-choice or true-false; a multiple-choice question has exactly 4
    options and its answer is literally one of them; a true-false question
    has the answer [True] or [False]. *)
Theorem fallback_answers_well_formed (w : world) (topic : string) (count : Z) :
  1 <= count ->
  questions (generateFallbackQuiz w topic count) <> [] /\
  Forall (fun q =>
            (type q = "multiple-choice" \/ type q = "true-false") /\
            (type q = "multiple-choice" ->
               exists os, options q = Some os /\ length os = 4%nat /\
                          In (answer q) os) /\
            (type q = "true-false" ->
               answer q = "True" \/ answer q = "False"))
         (questions (generateFallbackQuiz w topic count)).
Proof.
  intros H. split.
  - intros E. apply (f_equal length) in E. simpl in E.
    rewrite length_map, loop_indices_length in E. lia.
  - simpl. apply Forall_map, Forall_forall. intros i _.
    unfold fallback_question. destruct (i mod 2 =? 0); simpl.
    + split; [left; reflexivity|]. split; [|discriminate].
      intros _. eexists. split; [reflexivity|]. split; [reflexivity|].
      left. reflexivity.
    + split; [right; reflexivity|]. split; [discriminate|].
      intros _. left. reflexivity.
Qed.

Lemma fallback_answers_well_formed_witness :
  questions (generateFallbackQuiz offline "Math" 3) <> [] /\
  Forall (fun q =>
            (type q = "multiple-choice" \/ type q = "true-false") /\
            (type q = "multiple-choice" ->
               exists os, options q = Some os /\ length os = 4%nat /\
                          In (answer q) os) /\
            (type q = "true-false" ->
               answer q = "True" \/ answer q = "False"))
         (questions (generateFallbackQuiz offline "Math" 3)).
Proof. apply (fallback_answers_well_formed offline "Math" 3). lia. Defined.

(** C10.  For every topic and every count of at most 0, the fallback
    generator still returns a quiz: its list of questions is empty and its
    [total_questions] is the count it was given, so the JSON value it stands
    for does not meet the schema's demand of at least one question. *)
Theorem fallback_nonpositive_count (w : world) (topic : string) (count : Z) :
  count <= 0 ->
  questions (generateFallbackQuiz w topic count) = [] /\
  total_questions (generateFallbackQuiz w topic count) = count /\
  schema_quiz (json_of_quiz (generateFallbackQuiz w topic count)) = false.
Proof.
  intros H.
  assert (questions (generateFallbackQuiz w topic count) = []) as E.
  { simpl. unfold loop_indices. rewrite seqZ_nil by lia. reflexivity. }
  split; [exact E|]. split; [reflexivity|].
  unfold schema_quiz, json_of_quiz.
  destruct (quiz_props_lookup (generateFallbackQuiz w topic count))
    as (_ & -> & -> & _).
  rewrite E. simpl. apply andb_false_intro1, andb_false_intro1, andb_false_r.
Qed.

Lemma fallback_nonpositive_count_witness :
  questions (generateFallbackQuiz offline "Math" (-2)) = [] /\
  total_questions (generateFallbackQuiz offline "Math" (-2)) = -2 /\
  schema_quiz (json_of_quiz (generateFallbackQuiz offline "Math" (-2))) = false.
Proof. apply (fallback_nonpositive_count offline "Math" (-2)). lia. Defined.


(** ** The claims about the handler *)

(** C1, as amended.  For every non-empty topic and every count of at least
    1: a request without an API key is answered 400 with the error
    [API key is required] and no fetch is made; a request with a key is
    answered 200, never with a generation failure, and the quiz sent is the
    value of the first adapter that returns one, Gemini before Hugging Face,
    or the quiz of [generateFallbackQuiz] when both throw, which is the one
    case in which the console shows the fallback line.  The quiz is not
    validated: the fallback quiz meets the schema of section 3, while a quiz
    of a provider is sent as parsed, the object of Gemini with the two
    metadata properties set and the value of Hugging Face as it is. *)
Theorem handler_always_answers (w : world) (key : option string)
    (topic : string) (count : Z) :
  topic <> "" -> 1 <= count ->
  let s := serve w {| method := "POST";
                      req_body := Some {| api_key := key; topic := Some topic;
                                          num_questions := Some count |} |} in
  (missing key = true ->
     code (res s) = Some 400 /\
     payload (res s) = Some (error_body "API key is required") /\
     fetches s = []) /\
  (forall k, key = Some k -> k <> "" ->
     let gemini := fst (generateQuizWithGemini w k topic count initial) in
     let hugging_face :=
       fst (generateQuizWithHuggingFace w topic count
              (record_fetch (GeminiGenerateContent k) initial)) in
     let fallback := json_of_quiz (generateFallbackQuiz w topic count) in
     code (res s) = Some 200 /\
     payload (res s)
     = Some match gemini, hugging_face with
            | Val quiz, _ => quiz
            | Exc _, Val quiz => quiz
            | Exc _, Exc _ => fallback
            end /\
     schema_quiz fallback = true /\
     (In (ConsoleLog "🔄 Using local fallback quiz generation") (console s)
      <-> exists e e', gemini = Exc e /\ hugging_face = Exc e') /\
     (forall text o,
        gemini_answers w k text ->
        JSON_parse (cleanText text) = ParseOk (JObj o) ->
        gemini
        = Val (JObj (<["generated_at" := JStr (now w)]>
                    (<["source" := JStr ("AI analysis of " +:+ topic)]> o)))) /\
     (forall text span v,
        hugging_face_answers w text -> text <> "" ->
        match_braces text = Some span -> JSON_parse span = ParseOk v ->
        hugging_face = Val v)).
Proof.
  intros Ht Hc. split.
  - intros Hk. unfold serve, handler. simpl.
    unfold bind, try_catch, setHeader, update_res. simpl.
    rewrite Hk. repeat split.
  - intros k -> Hk.
    destruct (serve_post w k topic (Some count) Hk Ht) as (quiz & s' & C & E).
    cbv zeta. rewrite E. clear E. simpl in C.
    split; [reflexivity|].
    split; [|split; [apply fallback_meets_schema; exact Hc|split; [|split]]].
    + destruct C as [q H | e s2 q H -> H2 | e s2 e' H -> H2];
        rewrite (gemini_result_by_fetch_count w k topic count
                   initial after_headers eq_refl), H;
        try (match type of H2 with
             | fst (generateQuizWithHuggingFace _ _ _ ?s0) = _ =>
                 rewrite (hugging_face_result_by_fetch_count w topic count
                            (record_fetch (GeminiGenerateContent k) initial)
                            s0 eq_refl), H2
             end);
        reflexivity.
    + destruct C as [q H | e s2 q H -> H2 | e s2 e' H -> H2];
        rewrite (gemini_result_by_fetch_count w k topic count
                   initial after_headers eq_refl), H;
        try (match type of H2 with
             | fst (generateQuizWithHuggingFace _ _ _ ?s0) = _ =>
                 rewrite (hugging_face_result_by_fetch_count w topic count
                            (record_fetch (GeminiGenerateContent k) initial)
                            s0 eq_refl), H2
             end); simpl.
      * split; [intros [F|[]]; discriminate | intros (e & e' & F & _); discriminate].
      * split; [intros [F|[F|[F|[]]]]; discriminate
               | intros (e0 & e' & _ & F); discriminate].
      * split; [intros _; exists e, e'; split; reflexivity | intros _].
        do 3 right. left. reflexivity.
    + intros text o (r & Hnet & Hok & Hbody) Hparse.
      rewrite (gemini_outcome w k topic count initial r text Hnet Hok Hbody).
      unfold gemini_result. rewrite Hparse. reflexivity.
    + intros text span v (r & Hnet & Hok & Hbody) Hne Hspan Hparse.
      rewrite (hugging_face_returns_parsed w topic count
                 (record_fetch (GeminiGenerateContent k) initial)
                 r text span v Hnet Hok Hbody Hne Hspan Hparse).
      reflexivity.
Qed.

Lemma handler_always_answers_witness :
  let s := serve offline (post "k" "Math" 3) in
  code (res s) = Some 200 /\
  payload (res s) = Some (json_of_quiz (generateFallbackQuiz offline "Math" 3)) /\
  schema_quiz (json_of_quiz (generateFallbackQuiz offline "Math" 3)) = true /\
  In (ConsoleLog "🔄 Using local fallback quiz generation") (console s).
Proof.
  destruct (handler_always_answers offline (Some "k") "Math" 3
              ltac:(discriminate) ltac:(lia)) as [_ H].
  destruct (H "k" eq_refl ltac:(discriminate)) as (H1 & H2 & H3 & H4 & _).
  split; [exact H1|]. split; [exact H2|]. split; [exact H3|].
  apply H4. eexists _, _. split; reflexivity.
Defined.

(** C1 as stated fails: Gemini answers a request for 3 questions on Math with
    the text of an empty object; the handler answers 200 with that object and
    the two metadata properties, which has no title and no questions. *)
Lemma handler_returns_unvalidated_quiz :
  let s := serve (gemini_says (object [])) (post "k" "Math" 3) in
  code (res s) = Some 200 /\
  payload (res s)
  = Some (JObj (<["generated_at" := JStr "2025-01-01T00:00:00.000Z"]>
               {[ "source" := JStr "AI analysis of Math" ]})) /\
  (schema_quiz <$> payload (res s)) = Some false.
Proof. vm_compute. repeat split. Qed.

(** C4, as amended.  A POST request whose topic is missing or empty is
    answered 400 before any fetch and without a quiz, with the error
    [API key is required] when the key is missing too and [Topic is required]
    otherwise.  The count is not examined: a request with a key and a topic
    is passed to the chain whatever its count, Gemini is asked first, and the
    request is answered 200 with a quiz value. *)
Theorem handler_rejects_missing_topic (w : world) (key topic : option string)
    (count : option Z) (key' topic' : string) (count' : Z) :
  missing topic = true -> key' <> "" -> topic' <> "" ->
  let s := serve w {| method := "POST";
                      req_body := Some {| api_key := key; topic := topic;
                                          num_questions := count |} |} in
  let s' := serve w (post key' topic' count') in
  (fetches s = [] /\ code (res s) = Some 400 /\
   payload (res s)
   = Some (error_body (if missing key then "API key is required"
                       else "Topic is required"))) /\
  (head (fetches s') = Some (GeminiGenerateContent key') /\
   code (res s') = Some 200 /\ is_Some (payload (res s'))).
Proof.
  intros Ht Hk' Ht'. split.
  - destruct (serve_without_topic w key topic count Ht) as (F & _ & C & P).
    repeat split; assumption.
  - destruct (serve_post w key' topic' (Some count') Hk' Ht')
      as (quiz & s1 & C & E).
    unfold post. rewrite E. simpl in C.
    split; [|split; [reflexivity | eexists; reflexivity]].
    change (fetches (answered 200 quiz s1)) with (fetches s1).
    destruct (chain_run_fetches _ _ _ _ _ _ _ C) as [-> | ->]; reflexivity.
Qed.

Lemma handler_rejects_missing_topic_witness :
  let s := serve offline {| method := "POST";
                            req_body := Some {| api_key := Some "k";
                                                topic := Some "";
                                                num_questions := Some 5 |} |} in
  let s' := serve offline (post "k" "Math" (-1)) in
  (fetches s = [] /\ code (res s) = Some 400 /\
   payload (res s) = Some (error_body "Topic is required")) /\
  (head (fetches s') = Some (GeminiGenerateContent "k") /\
   code (res s') = Some 200 /\ is_Some (payload (res s'))).
Proof.
  apply (handler_rejects_missing_topic offline (Some "k") (Some "") (Some 5)
           "k" "Math" (-1)); [reflexivity | discriminate | discriminate].
Defined.

(** C4 as stated fails: a request for 0 questions on Math, with a key, is not
    rejected; both fetching adapters are tried and the request is answered
    200 with the fallback quiz, whose list of questions is empty. *)
Lemma handler_accepts_count_zero :
  let s := serve offline (post "k" "Math" 0) in
  fetches s = [GeminiGenerateContent "k"; HuggingFaceInference] /\
  code (res s) = Some 200 /\
  payload (res s) = Some (json_of_quiz (generateFallbackQuiz offline "Math" 0)) /\
  questions (generateFallbackQuiz offline "Math" 0) = [].
Proof. vm_compute. repeat split. Qed.

(** C2, as amended.  The [total_questions] of a quiz taken from a provider is
    returned as the provider gave it; it is not corrected to the length of
    the [questions] array.  When Gemini's cleaned text parses to an object,
    the handler returns that object's [total_questions] and [questions]
    unchanged; when Gemini is unreachable and the brace span of the text
    Hugging Face generated parses, the handler returns the parsed value
    itself.  In particular, for a Gemini quiz that declares 7 questions and
    carries 5, the returned quiz declares 7 and carries 5. *)
Theorem provider_count_returned_as_given (w : world) (key topic : string)
    (count : Z) (text : string) (o : gmap string json) (w' : world)
    (text' span : string) (v : json) :
  key <> "" -> topic <> "" ->
  gemini_answers w key text ->
  JSON_parse (cleanText text) = ParseOk (JObj o) ->
  net w' 0 (GeminiGenerateContent key) = Rejects ->
  hugging_face_answers w' text' -> text' <> "" ->
  match_braces text' = Some span -> JSON_parse span = ParseOk v ->
  (exists o', payload (res (serve w (post key topic count))) = Some (JObj o') /\
              o' !! "total_questions" = o !! "total_questions" /\
              o' !! "questions" = o !! "questions") /\
  payload (res (serve w' (post key topic count))) = Some v /\
  (exists o', payload (res (serve (gemini_says seven_for_five_text)
                                  (post "k" "Math" 5))) = Some (JObj o') /\
              o' !! "total_questions" = Some (JInt 7) /\
              o' !! "questions" = Some (JArr (replicate 5 sound_question))).
Proof.
  intros Hk Ht Hg Hparse Hr Hhf Htext Hspan Hparse'. split; [|split].
  - rewrite (serve_gemini_object w key topic count text o Hk Ht Hg Hparse).
    eexists. split; [reflexivity|].
    rewrite !lookup_insert_ne by done. split; reflexivity.
  - apply (serve_hugging_face_parsed w' key topic count text' span v
             Hk Ht Hr Hhf Htext Hspan Hparse').
  - exists (<["generated_at" := JStr "2025-01-01T00:00:00.000Z"]>
              (<["source" := JStr "AI analysis of Math"]> seven_for_five)).
    repeat split; vm_compute; reflexivity.
Qed.

Lemma provider_count_returned_as_given_witness :
  (exists o', payload (res (serve (gemini_says seven_for_five_text)
                                  (post "k" "Math" 5))) = Some (JObj o') /\
              o' !! "total_questions" = seven_for_five !! "total_questions" /\
              o' !! "questions" = seven_for_five !! "questions") /\
  payload (res (serve (hugging_face_says bare_quiz_text) (post "k" "Math" 5)))
  = Some bare_quiz.
Proof.
  destruct (provider_count_returned_as_given
              (gemini_says seven_for_five_text) "k" "Math" 5
              seven_for_five_text seven_for_five
              (hugging_face_says bare_quiz_text) bare_quiz_text bare_quiz_text
              bare_quiz) as (H1 & H2 & _).
  - discriminate.
  - discriminate.
  - eexists. repeat split; reflexivity.
  - vm_compute. reflexivity.
  - reflexivity.
  - eexists. repeat split; reflexivity.
  - discriminate.
  - vm_compute. reflexivity.
  - vm_compute. reflexivity.
  - split; [exact H1 | exact H2].
Defined.

(** C2 as stated fails: Gemini returns a quiz that declares 7 questions and
    carries 5; the quiz the handler returns still declares 7, not 5, and
    carries 5 questions. *)
Lemma provider_count_not_reconciled :
  exists o qs,
    payload (res (serve (gemini_says seven_for_five_text) (post "k" "Math" 5)))
    = Some (JObj o) /\
    o !! "total_questions" = Some (JInt 7) /\
    o !! "questions" = Some (JArr qs) /\ length qs = 5%nat /\
    JInt 7 <> JInt 5.
Proof.
  exists (<["generated_at" := JStr "2025-01-01T00:00:00.000Z"]>
            (<["source" := JStr "AI analysis of Math"]> seven_for_five)),
         (replicate 5 sound_question).
  repeat split; try (vm_compute; reflexivity). discriminate.
Qed.

(** C3, as amended.  A candidate quiz is not validated against the schema.
    When the text of Gemini's answer, once cleaned, parses to a JSON object,
    that object is accepted whatever it holds: the request is answered 200
    with it and the two metadata properties, and no further adapter is asked
    (a parsed array is likewise sent as it is).  The chain advances, and
    Hugging Face is asked next, only when the cleaned text does not parse or
    parses to [null] or a primitive, on which the metadata cannot be set. *)
Theorem candidate_accepted_unvalidated (w : world) (key topic : string)
    (count : Z) (text : string) :
  key <> "" -> topic <> "" ->
  gemini_answers w key text ->
  let s := serve w (post key topic count) in
  match JSON_parse (cleanText text) with
  | ParseOk (JObj o) =>
      code (res s) = Some 200 /\
      payload (res s)
      = Some (JObj (<["generated_at" := JStr (now w)]>
                   (<["source" := JStr ("AI analysis of " +:+ topic)]> o))) /\
      fetches s = [GeminiGenerateContent key] /\
      console s = [ConsoleLog "✅ Generated quiz with Gemini API"]
  | ParseOk (JArr l) =>
      code (res s) = Some 200 /\ payload (res s) = Some (JArr l) /\
      fetches s = [GeminiGenerateContent key]
  | ParseOk _ | ParseSyntaxError =>
      fetches s = [GeminiGenerateContent key; HuggingFaceInference]
  | OutOfFuel => False
  end.
Proof.
  intros Hk Ht Hg s.
  pose proof (serve_gemini_answer w key topic count text Hk Ht Hg) as H.
  pose proof (JSON_parse_fuel_enough (cleanText text)) as F.
  unfold gemini_result in H. subst s.
  destruct (JSON_parse (cleanText text)) as [[]| |];
    try exact H; try (rewrite H; repeat split); congruence.
Qed.

Lemma candidate_accepted_unvalidated_witness :
  let s := serve (gemini_says malformed_quiz_text) (post "k" "Math" 2) in
  code (res s) = Some 200 /\
  payload (res s)
  = Some (JObj (<["generated_at" := JStr "2025-01-01T00:00:00.000Z"]>
               (<["source" := JStr "AI analysis of Math"]> malformed_quiz))) /\
  fetches s = [GeminiGenerateContent "k"] /\
  console s = [ConsoleLog "✅ Generated quiz with Gemini API"].
Proof.
  pose proof (candidate_accepted_unvalidated
                (gemini_says malformed_quiz_text) "k" "Math" 2
                malformed_quiz_text) as H.
  assert (JSON_parse (cleanText malformed_quiz_text)
          = ParseOk (JObj malformed_quiz)) as E by (vm_compute; reflexivity).
  rewrite E in H. apply H.
  - discriminate.
  - discriminate.
  - eexists. repeat split; reflexivity.
Defined.

(** C3 as stated fails: Gemini returns a quiz whose first question has type
    essay and whose second, multiple-choice, question has an answer that is
    none of its options; the quiz does not meet the schema, yet the handler
    answers 200 with it and asks no other adapter. *)
Lemma malformed_candidate_returned :
  let s := serve (gemini_says malformed_quiz_text) (post "k" "Math" 2) in
  code (res s) = Some 200 /\
  fetches s = [GeminiGenerateContent "k"] /\
  (exists o, payload (res s) = Some (JObj o) /\
             o !! "questions" = Some (JArr [essay_question; stray_answer_question])) /\
  (schema_quiz <$> payload (res s)) = Some false /\
  schema_question essay_question = false /\
  schema_question stray_answer_question = false.
Proof.
  split; [vm_compute; reflexivity|].
  split; [vm_compute; reflexivity|].
  split.
  { exists (<["generated_at" := JStr "2025-01-01T00:00:00.000Z"]>
              (<["source" := JStr "AI analysis of Math"]> malformed_quiz)).
    split; vm_compute; reflexivity. }
  repeat split; vm_compute; reflexivity.
Qed.

(** C5, evaluated where it fails.  Gemini is unreachable, the OpenAI
    placeholder fails, and Hugging Face generates the text of a quiz whose
    [source] names the local fallback.  The adapters are tried in order, one
    fetch each, and the console shows that Hugging Face produced the quiz;
    but the Hugging Face adapter returns the parsed value as it is, so the
    [source] of the quiz sent is the provider's text and names the fallback
    instead. *)
Theorem source_after_hugging_face :
  let s := serve (hugging_face_says disguised_quiz_text) (post "k" "Math" 3) in
  fetches s = [GeminiGenerateContent "k"; HuggingFaceInference] /\
  console s
  = [ ConsoleError "❌ Gemini API failed:" "engine error";
      ConsoleError "❌ OpenAI API failed:" "OpenAI API not configured";
      ConsoleLog "✅ Generated quiz with Hugging Face API" ] /\
  payload (res s) = Some disguised_quiz /\
  own_property disguised_quiz (Named "source")
  = Some (JStr (source (generateFallbackQuiz
                          (hugging_face_says disguised_quiz_text) "Math" 3))).
Proof. repeat split; vm_compute; reflexivity. Qed.

(** C8, evaluated where it fails.  Gemini is unreachable and Hugging Face
    generates the text of a quiz with a title only.  The request is answered
    200 with exactly that quiz: it carries neither [source] nor
    [generated_at], the Hugging Face adapter returning what it parsed without
    the metadata every other path adds. *)
Theorem metadata_after_hugging_face :
  let s := serve (hugging_face_says bare_quiz_text) (post "k" "Math" 3) in
  code (res s) = Some 200 /\
  payload (res s) = Some bare_quiz /\
  own_property bare_quiz (Named "source") = None /\
  own_property bare_quiz (Named "generated_at") = None.
Proof. repeat split; vm_compute; reflexivity. Qed.

(** C6, as amended.  The two adapters treat the provider text differently.
    Gemini: the text is trimmed of the white space around it; when the
    trimmed text begins with the marker [```json] the marker is removed, and
    when what is left ends with the marker [```] that one is removed, each
    on its own: a text between the two markers is cleaned to what lies
    between them, a text with the leading marker alone loses that marker, a
    text with no fence at its front loses the trailing marker if it has one,
    and is otherwise only trimmed.  The result is parsed directly and the
    adapter's result depends on that parse alone: there is no brace scan, a
    text that does not parse makes the adapter throw.  Hugging Face: no
    fence is stripped; the span from the first opening brace to the last
    closing brace of the generated text is parsed (the span is not the first
    balanced one), a span that does not parse makes the adapter throw, and a
    text without such a span yields the templated quiz of
    [createStructuredQuiz].  A parse that fails is a syntax error, never a
    lack of fuel of the model.  In particular the Gemini clean-up and parse
    of the fenced example yields the object with [a] equal to 1, also with
    white space outside ASCII around it, and so does the Hugging Face span
    of the example with prose around the object. *)
Theorem provider_text_normalization (w : world) (key topic : string) (count : Z)
    (inner text generated : string) :
  gemini_answers w key text ->
  hugging_face_answers w generated -> generated <> "" ->
  cleanText ("```json" +:+ inner +:+ "```") = inner /\
  (forall rest, trim text = "```json" +:+ rest ->
     (forall body, rest = body +:+ "```" -> cleanText text = body) /\
     (endsWith rest "```" = false -> cleanText text = rest)) /\
  (startsWith (trim text) "```" = false ->
     (forall body, trim text = body +:+ "```" -> cleanText text = body) /\
     (endsWith (trim text) "```" = false -> cleanText text = trim text)) /\
  fst (generateQuizWithGemini w key topic count initial)
  = match JSON_parse (cleanText text) with
    | ParseOk (JObj o) =>
        Val (JObj (<["generated_at" := JStr (now w)]>
                  (<["source" := JStr ("AI analysis of " +:+ topic)]> o)))
    | ParseOk (JArr l) => Val (JArr l)
    | ParseOk _ => Exc (EngineError NotAnObject)
    | _ => Exc (EngineError JsonSyntax)
    end /\
  fst (generateQuizWithHuggingFace w topic count
         (record_fetch (GeminiGenerateContent key) initial))
  = match match_braces generated with
    | Some span =>
        match JSON_parse span with
        | ParseOk v => Val v
        | _ => Exc (Error ("Hugging Face API failed: "
                           +:+ engine_message w JsonSyntax))
        end
    | None => Val (json_of_quiz (createStructuredQuiz w topic count generated))
    end /\
  (forall span, match_braces generated = Some span ->
     exists pre mid post,
       chars generated = (pre ++ chars span ++ post)%list /\
       chars span = ("{"%char :: mid ++ ["}"%char])%list /\
       ~ In "{"%char pre /\ ~ In "}"%char post) /\
  (forall t, JSON_parse t <> OutOfFuel) /\
  JSON_parse (cleanText fenced_text) = ParseOk a1 /\
  JSON_parse (cleanText padded_fenced_text) = ParseOk a1 /\
  cleanText leading_fence_text = nl +:+ a1_text /\
  cleanText trailing_fence_text = a1_text +:+ nl /\
  match_braces prose_text = Some a1_text /\
  JSON_parse a1_text = ParseOk a1.
Proof.
  intros (r & Hnet & Hok & Hbody) (r' & Hnet' & Hok' & Hbody') Hne.
  split; [apply cleanText_fenced|].
  split; [intros rest; apply cleanText_leading|].
  split; [apply cleanText_unfenced|].
  split.
  { rewrite (gemini_outcome w key topic count initial r text Hnet Hok Hbody).
    reflexivity. }
  split.
  { rewrite (hugging_face_outcome w topic count
               (record_fetch (GeminiGenerateContent key) initial)
               r' generated Hnet' Hok' Hbody' Hne).
    reflexivity. }
  split; [intros span; apply match_braces_span|].
  split; [apply JSON_parse_fuel_enough|].
  repeat split; vm_compute; reflexivity.
Qed.

Lemma provider_text_normalization_witness :
  cleanText ("```json" +:+ a1_text +:+ "```") = a1_text /\
  cleanText padded_fenced_text = nl +:+ a1_text +:+ nl /\
  fst (generateQuizWithGemini (providers_say padded_fenced_text prose_text)
         "k" "Math" 3 initial)
  = Val (JObj (<["generated_at" := JStr "2025-01-01T00:00:00.000Z"]>
              (<["source" := JStr "AI analysis of Math"]> {[ "a" := JInt 1 ]}))) /\
  fst (generateQuizWithHuggingFace (providers_say padded_fenced_text prose_text)
         "Math" 3 (record_fetch (GeminiGenerateContent "k") initial))
  = Val a1.
Proof.
  destruct (provider_text_normalization
              (providers_say padded_fenced_text prose_text) "k" "Math" 3
              a1_text padded_fenced_text prose_text)
    as (H1 & H2 & _ & H4 & H5 & _).
  - eexists. repeat split; reflexivity.
  - eexists. repeat split; reflexivity.
  - discriminate.
  - split; [exact H1|].
    split; [apply (H2 (nl +:+ a1_text +:+ nl +:+ "```"));
            [vm_compute; reflexivity | reflexivity]|].
    split; [exact H4 | exact H5].
Defined.

(** C6 as stated fails.  On the Gemini path the example with prose around the
    object does not yield the object: the direct parse fails and no brace
    scan follows, although the text has a balanced span that parses.  On the
    Hugging Face path the span taken is not the first balanced one: of a
    text that holds the object twice, it runs from the first opening brace
    to the last closing brace and does not parse. *)
Lemma normalization_not_as_specified :
  (JSON_parse (cleanText prose_text) = ParseSyntaxError /\
   fst (generateQuizWithGemini (gemini_says prose_text) "k" "Math" 3 initial)
   = Exc (EngineError JsonSyntax) /\
   first_balanced_span prose_text = Some a1_text /\
   JSON_parse a1_text = ParseOk a1) /\
  (match_braces two_objects_text = Some (a1_text +:+ " and " +:+ a1_text) /\
   JSON_parse (a1_text +:+ " and " +:+ a1_text) = ParseSyntaxError /\
   first_balanced_span two_objects_text = Some a1_text /\
   fst (generateQuizWithHuggingFace (hugging_face_says two_objects_text)
          "Math" 3 (record_fetch (GeminiGenerateContent "k") initial))
   = Exc (Error "Hugging Face API failed: engine error")).
Proof. repeat split; vm_compute; reflexivity. Qed.

(** * Further properties *)

(** ** Further properties of the local generators *)

Module MoreGeneratorFacts.

Lemma structured_question_lookup w topic (n i : Z) content :
  0 <= i < n ->
  questions (createStructuredQuiz w topic n content) !! Z.to_nat i
  = Some (structured_question topic n i).
Proof.
  intros H. simpl. rewrite list_lookup_fmap, loop_indices_lookup by lia.
  reflexivity.
Qed.

Lemma band_difficulty_at (i n : Z) :
  band (difficulty_at i n)
  = if 3 * i <? n then 0%nat else if 3 * i <? 2 * n then 1%nat else 2%nat.
Proof.
  rewrite difficulty_at_bands.
  destruct (3 * i <? n); [reflexivity|].
  destruct (3 * i <? 2 * n); reflexivity.
Qed.

(** The indices below [a] of a loop of [n] rounds, for [0 <= a <= n], come
    first. *)
Lemma loop_indices_split (n a : Z) :
  0 <= a <= n -> loop_indices n = (seqZ 0 a ++ seqZ a (n - a))%list.
Proof.
  intros H. unfold loop_indices.
  replace n with (a + (n - a)) at 1 by lia.
  rewrite seqZ_app by lia. reflexivity.
Qed.

Lemma filter_none {A} (P : A -> bool) (l : list A) :
  (forall x, In x l -> P x = false) -> List.filter P l = [].
Proof.
  induction l as [|x l IH]; intros H; simpl; [reflexivity|].
  rewrite (H x (or_introl eq_refl)). apply IH. intros y Hy. apply H. now right.
Qed.

Lemma filter_all {A} (P : A -> bool) (l : list A) :
  (forall x, In x l -> P x = true) -> List.filter P l = l.
Proof.
  induction l as [|x l IH]; intros H; simpl; [reflexivity|].
  rewrite (H x (or_introl eq_refl)). f_equal. apply IH.
  intros y Hy. apply H. now right.
Qed.

Lemma filter_map_commute {A B} (P : B -> bool) (f : A -> B) (l : list A) :
  List.filter P (map f l) = map f (List.filter (fun a => P (f a)) l).
Proof.
  induction l as [|x l IH]; simpl; [reflexivity|].
  rewrite IH. destruct (P (f x)); reflexivity.
Qed.

(** A test that holds exactly on the indices from [a] up to [b] holds on
    [b - a] rounds of the loop. *)
Lemma count_between (P : Z -> bool) (a b n : Z) :
  0 <= a <= b -> b <= n ->
  (forall i, 0 <= i < n -> P i = ((a <=? i) && (i <? b))) ->
  Z.of_nat (length (List.filter P (loop_indices n))) = b - a.
Proof.
  intros Ha Hb HP.
  rewrite (loop_indices_split n b) by lia.
  replace (seqZ 0 b) with (seqZ 0 a ++ seqZ a (b - a))%list.
  2:{ symmetry. apply (loop_indices_split b a). lia. }
  rewrite !List.filter_app, !length_app.
  assert (List.filter P (seqZ 0 a) = []) as ->.
  { apply filter_none. intros i Hi.
    apply list_elem_of_In, elem_of_seqZ in Hi.
    rewrite HP by lia. apply andb_false_intro1, Z.leb_gt. lia. }
  assert (List.filter P (seqZ a (b - a)) = seqZ a (b - a)) as ->.
  { apply filter_all. intros i Hi.
    apply list_elem_of_In, elem_of_seqZ in Hi.
    rewrite HP by lia. apply andb_true_intro.
    split; [apply Z.leb_le | apply Z.ltb_lt]; lia. }
  assert (List.filter P (seqZ b (n - b)) = []) as ->.
  { apply filter_none. intros i Hi.
    apply list_elem_of_In, elem_of_seqZ in Hi.
    rewrite HP by lia. apply andb_false_intro2, Z.ltb_ge. lia. }
  rewrite length_seqZ. simpl. lia.
Qed.

(** Comparisons of an index with a band boundary, decided by arithmetic. *)
Ltac band_arith :=
  repeat match goal with
  | |- context [?x <? ?y] => destruct (Z.ltb_spec x y)
  | |- context [?x <=? ?y] => destruct (Z.leb_spec x y)
  end;
  simpl; try reflexivity; try (exfalso; Z.div_mod_to_equations; lia);
  Z.div_mod_to_equations; lia.

Lemma fallback_question_difficulty topic (n i : Z) :
  difficulty (fallback_question topic n i) = difficulty_at i n.
Proof. unfold fallback_question. destruct (i mod 2 =? 0); reflexivity. Qed.

Lemma structured_question_difficulty topic (n i : Z) :
  difficulty (structured_question topic n i) = difficulty_at i n.
Proof. unfold structured_question. destruct (i mod 2 =? 0); reflexivity. Qed.

(** The number of questions of the fallback quiz whose difficulty is [d],
    when [d] is the difficulty of exactly the indices from [a] up to [b]. *)
Lemma fallback_band_size w topic (n a b : Z) (d : string) :
  0 <= a <= b -> b <= n ->
  (forall i, 0 <= i < n ->
     String.eqb (difficulty_at i n) d = ((a <=? i) && (i <? b))) ->
  Z.of_nat (length (List.filter (fun q => String.eqb (difficulty q) d)
                      (questions (generateFallbackQuiz w topic n))))
  = b - a.
Proof.
  intros Ha Hb H. simpl. rewrite filter_map_commute, length_map.
  apply count_between; [exact Ha | exact Hb|].
  intros i Hi. rewrite fallback_question_difficulty. apply H. exact Hi.
Qed.

Lemma structured_question_schema topic (n i : Z) :
  schema_question (json_of_question (structured_question topic n i)) = true.
Proof.
  unfold schema_question, json_of_question.
  destruct (question_props_lookup (structured_question topic n i))
    as (-> & -> & -> & -> & -> & ->).
  rewrite structured_question_difficulty.
  unfold string_among. rewrite difficulty_at_among.
  unfold structured_question. destruct (i mod 2 =? 0); simpl.
  - rewrite String.eqb_refl. reflexivity.
  - destruct topic; reflexivity.
Qed.

End MoreGeneratorFacts.
Import MoreGeneratorFacts.

(** X1.  Both local generators run their loop [count] times: the quiz has
    [count] questions when [count] is not negative and none otherwise, so
    its [total_questions] is the number of its questions exactly when
    [count] is not negative. *)
Theorem generators_question_count (w : world) (topic content : string)
    (count : Z) :
  length (questions (generateFallbackQuiz w topic count)) = Z.to_nat count /\
  length (questions (createStructuredQuiz w topic count content))
  = Z.to_nat count /\
  (total_questions (generateFallbackQuiz w topic count)
   = Z.of_nat (length (questions (generateFallbackQuiz w topic count)))
   <-> 0 <= count) /\
  (total_questions (createStructuredQuiz w topic count content)
   = Z.of_nat (length (questions (createStructuredQuiz w topic count content)))
   <-> 0 <= count).
Proof.
  simpl. rewrite !length_map, loop_indices_length. repeat split; lia.
Qed.

(** X2.  The questions of both local generators alternate by the parity of
    their index: at an even index a multiple-choice question with 4 options
    whose answer is the first option, at an odd index a true-false question
    without options whose answer is [True]. *)
Theorem generators_alternate (w : world) (topic content : string)
    (count i : Z) :
  0 <= i < count ->
  exists q q',
    questions (generateFallbackQuiz w topic count) !! Z.to_nat i = Some q /\
    questions (createStructuredQuiz w topic count content) !! Z.to_nat i
    = Some q' /\
    (i mod 2 = 0 ->
       type q = "multiple-choice" /\ type q' = "multiple-choice" /\
       (exists os, options q = Some os /\ length os = 4%nat /\
                   head os = Some (answer q)) /\
       (exists os, options q' = Some os /\ length os = 4%nat /\
                   head os = Some (answer q'))) /\
    (i mod 2 <> 0 ->
       type q = "true-false" /\ type q' = "true-false" /\
       options q = None /\ options q' = None /\
       answer q = "True" /\ answer q' = "True").
Proof.
  intros H.
  exists (fallback_question topic count i), (structured_question topic count i).
  split; [apply fallback_question_lookup; exact H|].
  split; [apply structured_question_lookup; exact H|].
  unfold fallback_question, structured_question.
  destruct (i mod 2 =? 0) eqn:E; [apply Z.eqb_eq in E | apply Z.eqb_neq in E].
  - split; [|intros N; contradiction]. intros _. simpl.
    repeat split; eexists; repeat split.
  - split; [intros N; contradiction|]. intros _. simpl. repeat split.
Qed.

Lemma generators_alternate_witness :
  exists q q',
    questions (generateFallbackQuiz offline "Math" 4) !! Z.to_nat 3 = Some q /\
    questions (createStructuredQuiz offline "Math" 4 "text") !! Z.to_nat 3
    = Some q' /\
    type q = "true-false" /\ type q' = "true-false" /\
    answer q = "True" /\ answer q' = "True".
Proof.
  destruct (generators_alternate offline "Math" "text" 4 3 ltac:(lia))
    as (q & q' & H1 & H2 & _ & H4).
  destruct H4 as (T1 & T2 & _ & _ & A1 & A2); [discriminate|].
  exists q, q'. repeat split; assumption.
Defined.

(** X3.  [createStructuredQuiz] does not use the text it is given: but for
    the time it is generated at, its quiz is the same whatever the text.
    That quiz has the shape of the fallback quiz for the same topic and
    count: the same title and count, and question by question the same type,
    difficulty and number of options; the two differ in their [source]. *)
Theorem structured_quiz_shape (w w' : world) (topic content content' : string)
    (count : Z) :
  let s := createStructuredQuiz w topic count content in
  let s' := createStructuredQuiz w' topic count content' in
  let f := generateFallbackQuiz w' topic count in
  (title s = title s' /\ total_questions s = total_questions s' /\
   questions s = questions s' /\ source s = source s') /\
  title s = title f /\ total_questions s = total_questions f /\
  map type (questions s) = map type (questions f) /\
  map difficulty (questions s) = map difficulty (questions f) /\
  map (fun q => length <$> options q) (questions s)
  = map (fun q => length <$> options q) (questions f) /\
  source s <> source f.
Proof.
  simpl. repeat split.
  - rewrite !map_map. apply map_ext. intros i.
    unfold structured_question, fallback_question.
    destruct (i mod 2 =? 0); reflexivity.
  - rewrite !map_map. apply map_ext. intros i.
    rewrite structured_question_difficulty, fallback_question_difficulty.
    reflexivity.
  - rewrite !map_map. apply map_ext. intros i.
    unfold structured_question, fallback_question.
    destruct (i mod 2 =? 0); reflexivity.
  - discriminate.
Qed.

(** X4.  Along the fallback quiz the difficulty never goes back: of two
    questions, the later one is at least as hard as the earlier one. *)
Theorem fallback_difficulty_monotone (w : world) (topic : string)
    (count i j : Z) :
  0 <= i <= j -> j < count ->
  exists q q',
    questions (generateFallbackQuiz w topic count) !! Z.to_nat i = Some q /\
    questions (generateFallbackQuiz w topic count) !! Z.to_nat j = Some q' /\
    (band (difficulty q) <= band (difficulty q'))%nat.
Proof.
  intros Hi Hj.
  exists (fallback_question topic count i), (fallback_question topic count j).
  split; [apply fallback_question_lookup; lia|].
  split; [apply fallback_question_lookup; lia|].
  rewrite !fallback_question_difficulty, !band_difficulty_at.
  destruct (3 * i <? count) eqn:A; [lia|].
  apply Z.ltb_ge in A.
  destruct (3 * j <? count) eqn:B; [apply Z.ltb_lt in B; lia|].
  destruct (3 * i <? 2 * count) eqn:C.
  - destruct (3 * j <? 2 * count); lia.
  - apply Z.ltb_ge in C.
    destruct (3 * j <? 2 * count) eqn:D; [apply Z.ltb_lt in D; lia | lia].
Qed.

Lemma fallback_difficulty_monotone_witness :
  exists q q',
    questions (generateFallbackQuiz offline "Math" 7) !! Z.to_nat 2 = Some q /\
    questions (generateFallbackQuiz offline "Math" 7) !! Z.to_nat 5 = Some q' /\
    (band (difficulty q) <= band (difficulty q'))%nat.
Proof.
  apply (fallback_difficulty_monotone offline "Math" 7 2 5); lia.
Defined.

(** X5.  For a count that is not negative, the fallback quiz has
    [ceil(count / 3)] easy questions, [floor(count / 3)] hard ones and the
    rest medium; the three numbers differ by at most one, the easy band
    being the largest and the hard band the smallest. *)
Theorem fallback_band_sizes (w : world) (topic : string) (count : Z) :
  0 <= count ->
  let size d :=
    Z.of_nat (length (List.filter (fun q => String.eqb (difficulty q) d)
                        (questions (generateFallbackQuiz w topic count)))) in
  size "easy" = (count + 2) / 3 /\
  size "medium" = (2 * count + 2) / 3 - (count + 2) / 3 /\
  size "hard" = count / 3 /\
  size "hard" <= size "medium" <= size "easy" /\
  size "easy" <= size "hard" + 1.
Proof.
  intros H size.
  assert (size "easy" = (count + 2) / 3 - 0) as E.
  { apply fallback_band_size; [| |intros i Hi; rewrite difficulty_at_bands];
      band_arith. }
  assert (size "medium" = (2 * count + 2) / 3 - (count + 2) / 3) as Md.
  { apply fallback_band_size; [| |intros i Hi; rewrite difficulty_at_bands];
      band_arith. }
  assert (size "hard" = count - (2 * count + 2) / 3) as Hd.
  { apply fallback_band_size; [| |intros i Hi; rewrite difficulty_at_bands];
      band_arith. }
  rewrite E, Md, Hd. clear E Md Hd size.
  repeat split; Z.div_mod_to_equations; lia.
Qed.

Lemma fallback_band_sizes_witness :
  let size d :=
    Z.of_nat (length (List.filter (fun q => String.eqb (difficulty q) d)
                        (questions (generateFallbackQuiz offline "Math" 10)))) in
  size "easy" = 4 /\ size "medium" = 3 /\ size "hard" = 3.
Proof.
  destruct (fallback_band_sizes offline "Math" 10 ltac:(lia))
    as (E & M & H & _).
  split; [exact E | split; [exact M | exact H]].
Defined.

(** ** Further properties of the clean-up and of the brace expression *)

Module MoreStringFacts.

Lemma drop_until_absent (c : ascii) (l r : list ascii) :
  ~ In c l -> drop_until c (l ++ r) = drop_until c r.
Proof.
  induction l as [|x l IH]; intros H; simpl; [reflexivity|].
  destruct (Ascii.eqb x c) eqn:E.
  - apply Ascii.eqb_eq in E. subst x. exfalso. apply H. now left.
  - apply IH. intros F. apply H. now right.
Qed.

Lemma drop_until_head (c : ascii) (r : list ascii) :
  drop_until c (c :: r) = c :: r.
Proof. simpl. rewrite Ascii.eqb_refl. reflexivity. Qed.

Lemma drop_until_none (c : ascii) (l : list ascii) :
  ~ In c l -> drop_until c l = [].
Proof.
  intros H. rewrite <- (app_nil_r l), drop_until_absent by exact H. reflexivity.
Qed.

Lemma drop_until_found (c : ascii) (l : list ascii) :
  In c l -> drop_until c l <> [].
Proof.
  intros H. destruct (drop_until_split c l) as [[_ N]|(pre & r & _ & _ & ->)];
    [contradiction | discriminate].
Qed.

(** The span is fixed by the first opening and the last closing brace. *)
Lemma match_braces_between (pre mid post : list ascii) :
  ~ In "{"%char pre -> ~ In "}"%char post ->
  match_braces (str (pre ++ "{"%char :: mid ++ "}"%char :: post))
  = Some (str ("{"%char :: mid ++ ["}"%char])).
Proof.
  intros Hpre Hpost. unfold match_braces. rewrite chars_str.
  rewrite drop_until_absent, drop_until_head by exact Hpre.
  rewrite rev_app_distr. simpl. rewrite <- app_assoc. simpl.
  rewrite drop_until_absent by (rewrite <- in_rev; exact Hpost).
  rewrite drop_until_head. simpl. rewrite rev_involutive. reflexivity.
Qed.

(** Text without braces around a text does not change what is matched. *)
Lemma match_braces_inside (pre post : list ascii) (t : string) :
  ~ In "{"%char pre -> ~ In "{"%char post -> ~ In "}"%char post ->
  match_braces (str (pre ++ chars t ++ post)) = match_braces t.
Proof.
  intros Hpre Hpost Hpost'. unfold match_braces. rewrite chars_str.
  rewrite drop_until_absent by exact Hpre.
  destruct (drop_until_split "{" (chars t)) as [[E N]|(p & r & E & Hp & ->)].
  - rewrite E, drop_until_absent, drop_until_none by assumption. reflexivity.
  - rewrite E, <- app_assoc, drop_until_absent by exact Hp.
    simpl.
    rewrite rev_app_distr, drop_until_absent
      by (rewrite <- in_rev; exact Hpost').
    reflexivity.
Qed.

Lemma suffix_after_first (c : ascii) (p r q t : list ascii) :
  ~ In c p -> (p ++ c :: r = q ++ c :: t)%list -> exists u, r = (u ++ t)%list.
Proof.
  revert q. induction p as [|a p IH]; intros q Hp E.
  - destruct q as [|x q]; simpl in E.
    + injection E as ->. exists []. reflexivity.
    + injection E as <- ->. exists (q ++ [c])%list.
      rewrite <- app_assoc. reflexivity.
  - destruct q as [|x q]; simpl in E.
    + injection E as -> _. exfalso. apply Hp. now left.
    + injection E as _ E. apply (IH q); [|exact E].
      intros F. apply Hp. now right.
Qed.

(** The digits of a count hold no brace. *)
Lemma uint_chars (d : Decimal.uint) (c : ascii) :
  In c (chars (NilEmpty.string_of_uint d)) -> is_digit c = true.
Proof.
  induction d; simpl; intros H; try contradiction;
    destruct H as [<- | H]; try reflexivity; apply IHd; exact H.
Qed.

Lemma string_of_Z_chars (z : Z) (c : ascii) :
  In c (chars (string_of_Z z)) -> is_digit c = true \/ c = "-"%char.
Proof.
  unfold string_of_Z, NilZero.string_of_int.
  assert (forall d, In c (chars (NilZero.string_of_uint d)) -> is_digit c = true) as U.
  { intros d. unfold NilZero.string_of_uint.
    destruct d;
      try match goal with
          | |- In _ (chars (NilEmpty.string_of_uint ?x)) -> _ =>
              exact (uint_chars x c)
          end.
    simpl. intros [<-|[]]. reflexivity. }
  destruct (Z.to_int z) as [d|d].
  - intros H. left. exact (U d H).
  - intros [<-|H]; [right; reflexivity | left; exact (U d H)].
Qed.

Lemma cleanText_of_trim (a b : string) :
  trim a = trim b -> cleanText a = cleanText b.
Proof. intros H. unfold cleanText. rewrite H. reflexivity. Qed.

(** The prompt of the Hugging Face adapter has no brace but the topic's. *)
Lemma prompt_no_braces (topic : string) (count : Z) :
  match_braces (huggingFacePrompt topic count) = match_braces topic.
Proof.
  unfold huggingFacePrompt.
  set (pre := "Create a quiz about " +:+ dq).
  set (post := dq +:+ " with " +:+ string_of_Z count +:+
    " questions. Use only multiple-choice and true/false questions. Format as JSON with title, total_questions, and questions array.").
  assert (forall c, In c (chars post) -> c <> "{"%char /\ c <> "}"%char) as P.
  { intros c. unfold post. rewrite !chars_app, !in_app_iff.
    intros [H|[H|[H|H]]].
    - vm_compute in H. intuition (subst; discriminate).
    - vm_compute in H. intuition (subst; discriminate).
    - apply string_of_Z_chars in H. destruct H as [H| ->].
      + split; intros ->; discriminate.
      + split; discriminate.
    - vm_compute in H. intuition (subst; discriminate). }
  rewrite <- (match_braces_inside (chars pre) (chars post) topic).
  - f_equal. rewrite <- (str_chars (_ +:+ _)). f_equal.
    unfold pre, post. rewrite !chars_app. rewrite <- !app_assoc. reflexivity.
  - vm_compute. intuition discriminate.
  - intros H. apply P in H. tauto.
  - intros H. apply P in H. tauto.
Qed.

End MoreStringFacts.
Import MoreStringFacts.

(** X6.  The brace expression matches exactly the texts that have an opening
    brace with a closing brace somewhere after it, and the match is the text
    from the first opening brace to the last closing brace: whatever
    precedes the first opening brace and follows the last closing brace is
    left out, and everything in between, further braces included, is kept. *)
Theorem match_braces_first_to_last (text : string) (pre mid post : list ascii) :
  ~ In "{"%char pre -> ~ In "}"%char post ->
  (chars text = (pre ++ "{"%char :: mid ++ "}"%char :: post)%list ->
   match_braces text = Some (str ("{"%char :: mid ++ ["}"%char]))) /\
  (match_braces text = None <->
   forall l1 l2 l3, chars text <> (l1 ++ "{"%char :: l2 ++ "}"%char :: l3)%list).
Proof.
  intros Hpre Hpost. split.
  - intros E. rewrite <- (str_chars text), E.
    apply match_braces_between; assumption.
  - split.
    + intros N l1 l2 l3 E.
      unfold match_braces in N.
      destruct (drop_until_split "{" (chars text))
        as [[_ A]|(p & r & E' & Hp & D)].
      * apply A. rewrite E. apply in_or_app. right. now left.
      * rewrite D in N. rewrite E' in E.
        destruct (suffix_after_first _ _ _ _ _ Hp E) as (u & ->).
        assert (In "}"%char (rev (u ++ l2 ++ "}"%char :: l3))) as I.
        { rewrite <- in_rev. apply in_or_app. right.
          apply in_or_app. right. now left. }
        apply drop_until_found in I.
        destruct (drop_until "}" (rev (u ++ l2 ++ "}"%char :: l3)));
          [congruence | discriminate].
    + intros A. destruct (match_braces text) as [span|] eqn:M; [|reflexivity].
      exfalso. destruct (match_braces_span text span M)
        as (p & m & q & E & S & _).
      apply (A p m q). rewrite E, S. simpl. rewrite <- app_assoc. reflexivity.
Qed.

Lemma match_braces_first_to_last_witness :
  match_braces two_objects_text
  = Some (str ("{"%char :: chars (member "a" "1" +:+ "} and {"
                                   +:+ member "a" "1") ++ ["}"%char])).
Proof.
  apply (match_braces_first_to_last two_objects_text (chars "first ")
           (chars (member "a" "1" +:+ "} and {" +:+ member "a" "1"))
           (chars " last")).
  - vm_compute. intuition discriminate.
  - vm_compute. intuition discriminate.
  - vm_compute. reflexivity.
Defined.

(** X7.  What the brace expression matches is matched whole when it is
    searched again, and text without braces put around a text does not
    change the match. *)
Theorem match_braces_stable (text span : string) (pre post : list ascii) :
  match_braces text = Some span ->
  ~ In "{"%char pre -> ~ In "{"%char post -> ~ In "}"%char post ->
  match_braces span = Some span /\
  match_braces (str (pre ++ chars text ++ post)) = Some span.
Proof.
  intros M Hpre Hpost Hpost'. split.
  - destruct (match_braces_span text span M) as (_ & m & _ & _ & S & _).
    rewrite <- (str_chars span) at 1 2. rewrite S.
    apply (match_braces_between [] m []); intros [].
  - rewrite match_braces_inside by assumption. exact M.
Qed.

Lemma match_braces_stable_witness :
  match_braces a1_text = Some a1_text /\
  match_braces (str (chars "see " ++ chars prose_text ++ chars " (end)"))
  = Some a1_text.
Proof.
  apply (match_braces_stable prose_text a1_text (chars "see ") (chars " (end)")).
  - vm_compute. reflexivity.
  - vm_compute. intuition discriminate.
  - vm_compute. intuition discriminate.
  - vm_compute. intuition discriminate.
Defined.

(** X8.  The prompt sent to Hugging Face holds no brace of its own: the
    brace expression finds in it what it finds in the topic, so a topic
    without an opening brace gives no match. *)
Theorem prompt_braces_from_topic (topic : string) (count : Z) :
  match_braces (huggingFacePrompt topic count) = match_braces topic /\
  (~ In "{"%char (chars topic) ->
   match_braces (huggingFacePrompt topic count) = None).
Proof.
  pose proof (prompt_no_braces topic count) as E.
  split; [exact E|].
  intros N. rewrite E. unfold match_braces.
  rewrite drop_until_none by exact N. reflexivity.
Qed.

Lemma prompt_braces_from_topic_witness :
  match_braces (huggingFacePrompt "Math" 5) = None.
Proof.
  apply (prompt_braces_from_topic "Math" 5).
  vm_compute. intuition discriminate.
Defined.

(** X9.  The clean-up only removes text at the two ends: the cleaned text
    lies inside the raw text, and is never longer. *)
Theorem cleanText_inside (text : string) :
  exists pre post,
    chars text = (pre ++ chars (cleanText text) ++ post)%list /\
    (String.length (cleanText text) <= String.length text)%nat.
Proof.
  assert (exists pre post, chars text = (pre ++ chars (cleanText text) ++ post)%list)
    as (pre & post & E).
  { destruct (trim_inside text) as (ws & ws' & E).
    unfold cleanText.
    set (c1 := if startsWith (trim text) "```json"
               then substring_from 7 (trim text) else trim text).
    assert (exists p, chars (trim text) = (p ++ chars c1)%list) as (p & E1).
    { unfold c1. destruct (startsWith _ _).
      - exists (take 7 (chars (trim text))). unfold substring_from.
        rewrite chars_str, take_drop. reflexivity.
      - exists []. reflexivity. }
    assert (exists q, chars c1
              = (chars (if endsWith c1 "```"
                        then substring_to (String.length c1 - 3) c1 else c1)
                 ++ q)%list) as (q & E2).
    { destruct (endsWith _ _).
      - exists (drop (String.length c1 - 3) (chars c1)). unfold substring_to.
        rewrite chars_str, take_drop. reflexivity.
      - exists []. rewrite app_nil_r. reflexivity. }
    exists (ws ++ p)%list, (q ++ ws')%list.
    rewrite E, E1, E2. rewrite <- !app_assoc. reflexivity. }
  exists pre, post. split; [exact E|].
  assert (forall s, String.length s = length (chars s)) as L.
  { induction s; simpl; congruence. }
  rewrite !L, E, !length_app. lia.
Qed.

(** X10.  White space around the fenced text does not matter, whichever of
    the white space characters and line terminators of [trim] it is made of,
    those outside ASCII included: a text made of white space, the marker
    [```json], any text, the marker [```] and white space is cleaned to the
    text between the markers. *)
Theorem cleanText_fenced_padded (ws ws' : list ascii) (inner : string) :
  blank ws -> blank ws' ->
  cleanText (str (ws ++ chars ("```json" +:+ inner +:+ "```") ++ ws')) = inner.
Proof.
  intros B B'.
  rewrite <- (cleanText_fenced inner) at 2.
  apply cleanText_of_trim.
  assert (chars ("```json" +:+ inner +:+ "```")
          = ("`"%char :: chars ("``json" +:+ inner +:+ "``") ++ ["`"%char])%list)
    as E.
  { rewrite !chars_app. simpl. rewrite <- !app_assoc. reflexivity. }
  rewrite <- (str_chars ("```json" +:+ inner +:+ "```")) at 2.
  rewrite E, trim_padded, trim_stable by (assumption || reflexivity).
  reflexivity.
Qed.

Lemma cleanText_fenced_padded_witness :
  cleanText (str (chars (bom +:+ " " +:+ nbsp +:+ nl)
                  ++ chars ("```json" +:+ a1_text +:+ "```")
                  ++ chars (nl +:+ nbsp)))
  = a1_text.
Proof.
  apply (cleanText_fenced_padded (chars (bom +:+ " " +:+ nbsp +:+ nl))
           (chars (nl +:+ nbsp)) a1_text).
  - apply blank_three; [reflexivity|]. apply blank_one; [reflexivity|].
    apply blank_two; [reflexivity|]. apply blank_one; [reflexivity|].
    apply blank_nil.
  - apply blank_one; [reflexivity|]. apply blank_two; [reflexivity|].
    apply blank_nil.
Defined.

(** ** Further properties of the adapters and of the two handlers *)

Module MoreHandlerFacts.

#[local] Arguments JSON_parse : simpl never.
#[local] Arguments cleanText : simpl never.
#[local] Arguments generate : simpl never.
#[local] Arguments generateQuizWithGemini : simpl never.
#[local] Arguments string_of_Z : simpl never.

(** The Gemini adapter on a response that is not successful. *)
Lemma gemini_not_ok w key topic n s r :
  net w (length (fetches s)) (GeminiGenerateContent key) = Resolves r ->
  ok r = false ->
  generateQuizWithGemini w key topic n s
  = (Exc (Error ("API request failed: " +:+ string_of_Z (status r)
                 +:+ " " +:+ statusText r)),
     record_fetch (GeminiGenerateContent key) s).
Proof.
  intros Hnet Hok. unfold generateQuizWithGemini, bind, fetch.
  rewrite Hnet, Hok. reflexivity.
Qed.

Lemma gemini_rejected w key topic n s :
  net w (length (fetches s)) (GeminiGenerateContent key) = Rejects ->
  generateQuizWithGemini w key topic n s
  = (Exc (EngineError FetchFailed), record_fetch (GeminiGenerateContent key) s).
Proof.
  intros Hnet. unfold generateQuizWithGemini, bind, fetch.
  rewrite Hnet. reflexivity.
Qed.

(** The Gemini adapter on a successful response whose first candidate's
    first part carries [text], whatever else the response holds. *)
Lemma gemini_envelope w key topic n s r d c cs ct p ps text :
  net w (length (fetches s)) (GeminiGenerateContent key) = Resolves r ->
  ok r = true -> body r = Some (JObj d) ->
  d !! "candidates" = Some (JArr (JObj c :: cs)) ->
  c !! "content" = Some (JObj ct) ->
  ct !! "parts" = Some (JArr (JObj p :: ps)) ->
  p !! "text" = Some (JStr text) ->
  generateQuizWithGemini w key topic n s
  = (gemini_result w topic text, record_fetch (GeminiGenerateContent key) s).
Proof.
  intros Hnet Hok Hbody Hd Hc Hct Hp.
  unfold generateQuizWithGemini, bind at 1, fetch. rewrite Hnet, Hok. simpl.
  unfold bind at 1, response_json. rewrite Hbody. simpl.
  unfold bind. simpl. rewrite Hd. simpl. rewrite Hc. simpl.
  rewrite Hct. simpl. rewrite Hp.
  unfold JSON_parse_M, gemini_result.
  destruct (JSON_parse (cleanText text)) as [[]| |]; reflexivity.
Qed.

(** The Gemini adapter on a successful response without a first candidate
    that has content. *)
Lemma gemini_no_content w key topic n s r d :
  net w (length (fetches s)) (GeminiGenerateContent key) = Resolves r ->
  ok r = true -> body r = Some (JObj d) ->
  d !! "candidates" = None \/ d !! "candidates" = Some (JArr []) \/
  (exists c cs, d !! "candidates" = Some (JArr (JObj c :: cs)) /\
                c !! "content" = None) ->
  generateQuizWithGemini w key topic n s
  = (Exc (Error "Invalid response from API"),
     record_fetch (GeminiGenerateContent key) s).
Proof.
  intros Hnet Hok Hbody H.
  unfold generateQuizWithGemini, bind at 1, fetch. rewrite Hnet, Hok. simpl.
  unfold bind at 1, response_json. rewrite Hbody. simpl.
  unfold bind. simpl.
  destruct H as [-> | [-> | (c & cs & -> & Hc)]]; simpl;
    [reflexivity | reflexivity | rewrite Hc; reflexivity].
Qed.

(** Every exception of the Hugging Face adapter is rethrown as an [Error]
    whose message begins with the adapter's name. *)
Lemma hugging_face_throws_wrapped w topic n s e :
  fst (generateQuizWithHuggingFace w topic n s) = Exc e ->
  exists e0, e = Error ("Hugging Face API failed: " +:+ message w e0).
Proof.
  unfold generateQuizWithHuggingFace, try_catch.
  match goal with |- context [match ?m s with _ => _ end] => destruct (m s) as [[a|e0] s'] end;
    simpl; intros H; [discriminate|].
  injection H as <-. exists e0. reflexivity.
Qed.

Lemma hugging_face_not_ok w topic n s r :
  net w (length (fetches s)) HuggingFaceInference = Resolves r ->
  ok r = false ->
  generateQuizWithHuggingFace w topic n s
  = (Exc (Error ("Hugging Face API failed: Hugging Face API error: "
                 +:+ string_of_Z (status r))),
     record_fetch HuggingFaceInference s).
Proof.
  intros Hnet Hok. unfold generateQuizWithHuggingFace, try_catch, bind, fetch.
  rewrite Hnet, Hok. reflexivity.
Qed.

Lemma hugging_face_rejected w topic n s :
  net w (length (fetches s)) HuggingFaceInference = Rejects ->
  generateQuizWithHuggingFace w topic n s
  = (Exc (Error ("Hugging Face API failed: " +:+ engine_message w FetchFailed)),
     record_fetch HuggingFaceInference s).
Proof.
  intros Hnet. unfold generateQuizWithHuggingFace, try_catch, bind, fetch.
  rewrite Hnet. reflexivity.
Qed.

(** The Hugging Face adapter on a successful response without a generated
    text: the prompt takes its place. *)
Lemma hugging_face_without_text w topic n s r data :
  net w (length (fetches s)) HuggingFaceInference = Resolves r ->
  ok r = true -> body r = Some data -> data <> JNull ->
  truthy (get_optional (own_property data Index0) (Named "generated_text"))
  = false ->
  generateQuizWithHuggingFace w topic n s
  = (hugging_face_result w topic n (huggingFacePrompt topic n),
     record_fetch HuggingFaceInference s).
Proof.
  intros Hnet Hok Hbody Hdata Hfalsy.
  unfold generateQuizWithHuggingFace, try_catch, bind at 1, fetch.
  rewrite Hnet, Hok. simpl.
  unfold bind at 1, response_json. rewrite Hbody. simpl.
  assert (forall k : jsval -> M json,
            bind (get (Some data) Index0) k
                 (record_fetch HuggingFaceInference s)
            = k (own_property data Index0)
                (record_fetch HuggingFaceInference s)) as ->.
  { intros k. destruct data; try reflexivity. congruence. }
  rewrite Hfalsy. unfold hugging_face_result, JSON_parse_M.
  destruct (match_braces _); [|reflexivity].
  destruct (JSON_parse _); reflexivity.
Qed.

Lemma chain_run_res w key topic n s quiz s' :
  chain_run w key topic n s quiz s' -> res s' = res s.
Proof. intros [q H | e s2 q H -> H2 | e s2 e' H -> H2]; reflexivity. Qed.

Lemma not_missing (x : option string) :
  missing x = false -> exists k, x = Some k /\ k <> "".
Proof.
  destruct x as [k|]; [|discriminate]. simpl. intros H.
  exists k. split; [reflexivity | apply String.eqb_neq; exact H].
Qed.

(** What the handler does, by the shape of the request. *)
Lemma serve_cases w (req : request) :
  if String.eqb (method req) "OPTIONS" then
    serve w req = finished 200 after_headers
  else if negb (String.eqb (method req) "POST") then
    serve w req = answered 405 (error_body "Method not allowed") after_headers
  else
    match req_body req with
    | None =>
        serve w req
        = answered 500
            (error_body ("Failed to generate quiz: "
                         +:+ engine_message w NoRequestBody))
            (record_line (ConsoleError "Error generating quiz:"
                            (engine_message w NoRequestBody)) after_headers)
    | Some b =>
        if missing (api_key b) then
          serve w req = answered 400 (error_body "API key is required") after_headers
        else if missing (topic b) then
          serve w req = answered 400 (error_body "Topic is required") after_headers
        else
          exists quiz s',
            chain_run w (default "" (api_key b)) (default "" (topic b))
              (default 10 (num_questions b)) after_headers quiz s' /\
            serve w req = answered 200 quiz s'
    end.
Proof.
  unfold serve, handler. simpl.
  unfold bind at 1 2 3 4 5, setHeader, update_res. simpl. fold after_headers.
  destruct (String.eqb (method req) "OPTIONS"); [reflexivity|].
  destruct (String.eqb (method req) "POST"); simpl; [|reflexivity].
  unfold try_catch. destruct (req_body req) as [b|]; [|reflexivity].
  destruct (missing (api_key b)); [reflexivity|].
  destruct (missing (topic b)); [reflexivity|].
  destruct (generate_chain w (default "" (api_key b)) (default "" (topic b))
              (default 10 (num_questions b)) after_headers)
    as (quiz & s' & G & C).
  exists quiz, s'. split; [exact C|].
  unfold bind.
  match goal with
  | |- context [generate _ _ _ _ ?st] => change st with after_headers
  end.
  rewrite G. reflexivity.
Qed.

(** What the Gemini-only copy does with a request that carries a key and a
    topic. *)
Lemma serve_gemini_only_post w key topic (count : Z) :
  key <> "" -> topic <> "" ->
  serve_gemini_only w (post key topic count)
  = match fst (generateQuizWithGemini w key topic count initial) with
    | Val quiz =>
        answered 200 quiz
          (record_fetch (GeminiGenerateContent key) after_headers_gemini_only)
    | Exc e =>
        answered 500 (error_body ("Failed to generate quiz: " +:+ message w e))
          (record_line (ConsoleError "Error generating quiz:" (message w e))
             (record_fetch (GeminiGenerateContent key)
                after_headers_gemini_only))
    end.
Proof.
  intros Hk Ht. unfold serve_gemini_only, handler_gemini_only. simpl.
  unfold bind at 1 2 3 4, setHeader, update_res. simpl.
  fold after_headers_gemini_only.
  rewrite (proj2 (String.eqb_neq _ _) Hk), (proj2 (String.eqb_neq _ _) Ht).
  unfold try_catch, bind.
  match goal with
  | |- context [generateQuizWithGemini _ _ _ _ ?st] =>
      change st with after_headers_gemini_only
  end.
  rewrite (gemini_result_by_fetch_count w key topic count initial
             after_headers_gemini_only eq_refl).
  pose proof (gemini_frame w key topic count after_headers_gemini_only) as F.
  destruct (generateQuizWithGemini w key topic count after_headers_gemini_only)
    as [[q|e] s1]; simpl in F; subst s1; reflexivity.
Qed.

End MoreHandlerFacts.
Import MoreHandlerFacts.

(** X11.  Every request gets an answer, whose status depends on the shape of
    the request alone: 200 for OPTIONS, 405 for any other method than POST,
    500 for a POST without a body, 400 for a POST whose key or topic is
    missing or empty, and 200 for every other POST, whatever the providers
    do. *)
Theorem handler_status_table (w : world) (req : request) :
  code (res (serve w req))
  = Some (if String.eqb (method req) "OPTIONS" then 200
          else if negb (String.eqb (method req) "POST") then 405
          else match req_body req with
               | None => 500
               | Some b =>
                   if missing (api_key b) || missing (topic b) then 400
                   else 200
               end) /\
  ended (res (serve w req)) = true.
Proof.
  pose proof (serve_cases w req) as H.
  destruct (String.eqb (method req) "OPTIONS"); [rewrite H; split; reflexivity|].
  destruct (negb (String.eqb (method req) "POST")); [rewrite H; split; reflexivity|].
  destruct (req_body req) as [b|]; [|rewrite H; split; reflexivity].
  destruct (missing (api_key b)); [rewrite H; split; reflexivity|].
  destruct (missing (topic b)); [rewrite H; split; reflexivity|].
  destruct H as (quiz & s' & _ & ->). split; reflexivity.
Qed.

(** X12.  The response of every request carries the same four CORS headers,
    set once each, whichever way the request is answered. *)
Theorem handler_response_headers (w : world) (req : request) :
  headers (res (serve w req))
  = [ ("Access-Control-Allow-Origin", "*");
      ("Access-Control-Allow-Methods", "GET, POST, PUT, DELETE, OPTIONS");
      ("Access-Control-Allow-Headers",
       "Content-Type, Authorization, X-Requested-With");
      ("Access-Control-Max-Age", "86400") ].
Proof.
  pose proof (serve_cases w req) as H.
  destruct (String.eqb (method req) "OPTIONS"); [rewrite H; reflexivity|].
  destruct (negb (String.eqb (method req) "POST")); [rewrite H; reflexivity|].
  destruct (req_body req) as [b|]; [|rewrite H; reflexivity].
  destruct (missing (api_key b)); [rewrite H; reflexivity|].
  destruct (missing (topic b)); [rewrite H; reflexivity|].
  destruct H as (quiz & s' & C & ->). simpl.
  rewrite (chain_run_res _ _ _ _ _ _ _ C). reflexivity.
Qed.

(** X13.  A provider is contacted only for a complete request, a POST whose
    body carries a key and a topic: every other request is answered without
    a fetch and without a quiz, and a complete request starts with a fetch
    to Gemini under the key of the request. *)
Theorem fetches_only_for_complete_requests (w : world) (req : request) :
  if complete req then
    exists b key, req_body req = Some b /\ api_key b = Some key /\
                  head (fetches (serve w req)) = Some (GeminiGenerateContent key)
  else
    fetches (serve w req) = [] /\
    match payload (res (serve w req)) with
    | None => method req = "OPTIONS"
    | Some v => exists msg, v = error_body msg
    end.
Proof.
  pose proof (serve_cases w req) as H. unfold complete.
  destruct (String.eqb (method req) "OPTIONS") eqn:O.
  { apply String.eqb_eq in O. rewrite O in *. simpl. rewrite H.
    split; reflexivity. }
  destruct (String.eqb (method req) "POST"); simpl in *;
    [|rewrite H; split; [reflexivity | eexists; reflexivity]].
  destruct (req_body req) as [b|];
    [|rewrite H; split; [reflexivity | eexists; reflexivity]].
  destruct (missing (api_key b)) eqn:K; simpl;
    [rewrite H; split; [reflexivity | eexists; reflexivity]|].
  destruct (missing (topic b)) eqn:T; simpl;
    [rewrite H; split; [reflexivity | eexists; reflexivity]|].
  destruct H as (quiz & s' & C & ->).
  destruct (not_missing _ K) as (key & Ek & _).
  exists b, key. split; [reflexivity|]. split; [exact Ek|].
  rewrite Ek in C. simpl in C.
  change (fetches (answered 200 quiz s')) with (fetches s').
  destruct (chain_run_fetches _ _ _ _ _ _ _ C) as [-> | ->]; reflexivity.
Qed.

(** X14.  For a complete request the adapters are tried in the order Gemini,
    OpenAI, Hugging Face, each at most once and each only after the ones
    before it failed, and the local fallback only after all three failed:
    the fetches and the console lines of the request have one of three
    shapes.  The OpenAI placeholder never fetches and always fails with the
    same message; a failure of Hugging Face is logged under the adapter's
    own prefix. *)
Theorem adapters_in_order (w : world) (key topic : string) (count : Z) :
  key <> "" -> topic <> "" ->
  let s := serve w (post key topic count) in
  (fetches s = [GeminiGenerateContent key] /\
   console s = [ConsoleLog "✅ Generated quiz with Gemini API"]) \/
  (fetches s = [GeminiGenerateContent key; HuggingFaceInference] /\
   exists m,
     console s
     = [ ConsoleError "❌ Gemini API failed:" m;
         ConsoleError "❌ OpenAI API failed:" "OpenAI API not configured";
         ConsoleLog "✅ Generated quiz with Hugging Face API" ]) \/
  (fetches s = [GeminiGenerateContent key; HuggingFaceInference] /\
   payload (res s) = Some (json_of_quiz (generateFallbackQuiz w topic count)) /\
   exists m m',
     console s
     = [ ConsoleError "❌ Gemini API failed:" m;
         ConsoleError "❌ OpenAI API failed:" "OpenAI API not configured";
         ConsoleError "❌ Hugging Face API failed:"
           ("Hugging Face API failed: " +:+ m');
         ConsoleLog "🔄 Using local fallback quiz generation" ]).
Proof.
  intros Hk Ht.
  destruct (serve_post w key topic (Some count) Hk Ht) as (quiz & s' & C & E).
  unfold post. cbv zeta. rewrite E. clear E. simpl in C.
  destruct C as [q H | e s2 q H -> H2 | e s2 e' H -> H2].
  - left. split; reflexivity.
  - right. left. split; [reflexivity|]. eexists. reflexivity.
  - right. right. split; [reflexivity|]. split; [reflexivity|].
    destruct (hugging_face_throws_wrapped _ _ _ _ _ H2) as (e0 & ->).
    eexists _, _. reflexivity.
Qed.

Lemma adapters_in_order_witness :
  let s := serve offline (post "k" "Math" 2) in
  fetches s = [GeminiGenerateContent "k"; HuggingFaceInference] /\
  last (console s) = Some (ConsoleLog "🔄 Using local fallback quiz generation").
Proof.
  destruct (adapters_in_order offline "k" "Math" 2
              ltac:(discriminate) ltac:(discriminate))
    as [(F & C) | [(F & m & C) | (F & _ & m & m' & C)]].
  - exfalso. vm_compute in F. discriminate.
  - exfalso. vm_compute in C. discriminate.
  - split; [exact F | rewrite C; reflexivity].
Defined.

(** X15.  When no fetch of a request obtains a successful response, be it
    rejected or answered with a status outside 200-299, a complete request
    is still answered 200: with the fallback quiz for its topic and count,
    after one fetch to each of Gemini and Hugging Face. *)
Theorem providers_down_gives_fallback (w : world) (key topic : string)
    (count : Z) :
  providers_down w -> key <> "" -> topic <> "" ->
  let s := serve w (post key topic count) in
  code (res s) = Some 200 /\
  payload (res s) = Some (json_of_quiz (generateFallbackQuiz w topic count)) /\
  fetches s = [GeminiGenerateContent key; HuggingFaceInference].
Proof.
  intros D Hk Ht.
  destruct (serve_post w key topic (Some count) Hk Ht) as (quiz & s' & C & E).
  unfold post. cbv zeta. rewrite E. clear E. simpl in C.
  assert (forall s, exists e,
            fst (generateQuizWithGemini w key topic count s) = Exc e) as G.
  { intros s. pose proof (D (length (fetches s)) (GeminiGenerateContent key)) as N.
    destruct (net w (length (fetches s)) (GeminiGenerateContent key)) as [|r] eqn:F.
    - rewrite gemini_rejected by exact F. eexists. reflexivity.
    - rewrite (gemini_not_ok _ _ _ _ _ r F N). eexists. reflexivity. }
  assert (forall s, exists e,
            fst (generateQuizWithHuggingFace w topic count s) = Exc e) as HF.
  { intros s. pose proof (D (length (fetches s)) HuggingFaceInference) as N.
    destruct (net w (length (fetches s)) HuggingFaceInference) as [|r] eqn:F.
    - rewrite hugging_face_rejected by exact F. eexists. reflexivity.
    - rewrite (hugging_face_not_ok _ _ _ _ r F N). eexists. reflexivity. }
  destruct C as [q H | e s2 q H -> H2 | e s2 e' H -> H2].
  - destruct (G after_headers) as (e & N). congruence.
  - match type of H2 with
    | fst (generateQuizWithHuggingFace _ _ _ ?s0) = _ =>
        destruct (HF s0) as (e' & N)
    end. congruence.
  - repeat split.
Qed.

Lemma providers_down_gives_fallback_witness :
  let s := serve offline (post "k" "Math" 4) in
  code (res s) = Some 200 /\
  payload (res s) = Some (json_of_quiz (generateFallbackQuiz offline "Math" 4)) /\
  fetches s = [GeminiGenerateContent "k"; HuggingFaceInference].
Proof.
  apply (providers_down_gives_fallback offline "k" "Math" 4).
  - intros k e. exact I.
  - discriminate.
  - discriminate.
Defined.

(** X16.  The two copies of the endpoint agree when the Gemini adapter
    returns a quiz: both answer 200 with that quiz after the one fetch.  When
    the adapter throws they part: the copy with the chain still answers 200,
    the Gemini-only copy answers 500 with the message of the exception, and
    it never asks another provider. *)
Theorem gemini_only_against_chain (w : world) (key topic : string) (count : Z) :
  key <> "" -> topic <> "" ->
  let c := serve w (post key topic count) in
  let g := serve_gemini_only w (post key topic count) in
  fetches g = [GeminiGenerateContent key] /\
  code (res c) = Some 200 /\
  match fst (generateQuizWithGemini w key topic count initial) with
  | Val quiz =>
      code (res g) = Some 200 /\
      payload (res g) = Some quiz /\ payload (res c) = Some quiz /\
      fetches c = [GeminiGenerateContent key]
  | Exc e =>
      code (res g) = Some 500 /\
      payload (res g)
      = Some (error_body ("Failed to generate quiz: " +:+ message w e)) /\
      fetches c = [GeminiGenerateContent key; HuggingFaceInference]
  end.
Proof.
  intros Hk Ht.
  destruct (serve_post w key topic (Some count) Hk Ht) as (quiz & s' & C & E).
  unfold post in *. cbv zeta. rewrite E. clear E. simpl in C.
  pose proof (serve_gemini_only_post w key topic count Hk Ht) as G.
  unfold post in G. rewrite G. clear G.
  rewrite (gemini_result_by_fetch_count w key topic count initial
             after_headers eq_refl).
  destruct C as [q H | e s2 q H -> H2 | e s2 e' H -> H2]; rewrite H;
    repeat split.
Qed.

Lemma gemini_only_against_chain_witness :
  let c := serve (gemini_says a1_text) (post "k" "Math" 3) in
  let g := serve_gemini_only (gemini_says a1_text) (post "k" "Math" 3) in
  fetches g = [GeminiGenerateContent "k"] /\
  code (res c) = Some 200 /\ code (res g) = Some 200 /\
  payload (res g) = payload (res c).
Proof.
  destruct (gemini_only_against_chain (gemini_says a1_text) "k" "Math" 3)
    as (F & C & H); [discriminate | discriminate |].
  assert (fst (generateQuizWithGemini (gemini_says a1_text) "k" "Math" 3 initial)
          = Val (JObj (<["generated_at" := JStr "2025-01-01T00:00:00.000Z"]>
                      (<["source" := JStr "AI analysis of Math"]>
                         {[ "a" := JInt 1 ]})))) as E
    by (vm_compute; reflexivity).
  rewrite E in H. destruct H as (Cg & Pg & Pc & _).
  split; [exact F|]. split; [exact C|]. split; [exact Cg|].
  rewrite Pg, Pc. reflexivity.
Defined.

(** X17.  A response of Gemini with a status outside 200-299 is a failure
    whatever its body: the adapter throws an error that names the status and
    its text.  The handler with the chain logs it and goes on to Hugging
    Face; the Gemini-only copy answers 500 with it. *)
Theorem gemini_http_error_reported (w : world) (key topic : string)
    (count : Z) (r : response) :
  key <> "" -> topic <> "" ->
  net w 0 (GeminiGenerateContent key) = Resolves r -> ok r = false ->
  let msg := "API request failed: " +:+ string_of_Z (status r)
             +:+ " " +:+ statusText r in
  fst (generateQuizWithGemini w key topic count initial) = Exc (Error msg) /\
  head (console (serve w (post key topic count)))
  = Some (ConsoleError "❌ Gemini API failed:" msg) /\
  fetches (serve w (post key topic count))
  = [GeminiGenerateContent key; HuggingFaceInference] /\
  payload (res (serve_gemini_only w (post key topic count)))
  = Some (error_body ("Failed to generate quiz: " +:+ msg)).
Proof.
  intros Hk Ht Hnet Hok msg.
  pose proof (gemini_not_ok w key topic count initial r Hnet Hok) as G.
  fold msg in G.
  split; [rewrite G; reflexivity|].
  rewrite (serve_gemini_only_post w key topic count Hk Ht), G.
  destruct (serve_post w key topic (Some count) Hk Ht) as (quiz & s' & C & E).
  unfold post in *. rewrite E. clear E. simpl in C.
  pose proof (gemini_not_ok w key topic count after_headers r Hnet Hok) as G'.
  fold msg in G'.
  destruct C as [q H | e s2 q H -> H2 | e s2 e' H -> H2]; rewrite G' in H;
    simpl in H; try discriminate; injection H as <-; repeat split.
Qed.

Lemma gemini_http_error_reported_witness :
  let w := always (Resolves {| status := 503;
                               statusText := "Service Unavailable";
                               body := None |}) in
  head (console (serve w (post "k" "Math" 3)))
  = Some (ConsoleError "❌ Gemini API failed:"
            "API request failed: 503 Service Unavailable") /\
  payload (res (serve_gemini_only w (post "k" "Math" 3)))
  = Some (error_body
            "Failed to generate quiz: API request failed: 503 Service Unavailable").
Proof.
  intros w.
  destruct (gemini_http_error_reported w "k" "Math" 3
              {| status := 503; statusText := "Service Unavailable";
                 body := None |}
              ltac:(discriminate) ltac:(discriminate) eq_refl eq_refl)
    as (_ & C & _ & P).
  split; [exact C | exact P].
Defined.

(** X18.  A successful response of Gemini whose JSON object has no
    [candidates], an empty array of candidates, or a first candidate without
    [content] makes the adapter throw [Invalid response from API] after its
    one fetch; nothing is parsed. *)
Theorem gemini_invalid_envelope (w : world) (key topic : string) (count : Z)
    (s : state) (r : response) (d : gmap string json) :
  net w (length (fetches s)) (GeminiGenerateContent key) = Resolves r ->
  ok r = true -> body r = Some (JObj d) ->
  d !! "candidates" = None \/ d !! "candidates" = Some (JArr []) \/
  (exists c cs, d !! "candidates" = Some (JArr (JObj c :: cs)) /\
                c !! "content" = None) ->
  generateQuizWithGemini w key topic count s
  = (Exc (Error "Invalid response from API"),
     record_fetch (GeminiGenerateContent key) s).
Proof. apply gemini_no_content. Qed.

Lemma gemini_invalid_envelope_witness :
  fst (generateQuizWithGemini
         (always (Resolves (ok_response (JObj {[ "candidates" := JArr [] ]}))))
         "k" "Math" 3 initial)
  = Exc (Error "Invalid response from API").
Proof.
  rewrite (gemini_invalid_envelope
             (always (Resolves (ok_response (JObj {[ "candidates" := JArr [] ]}))))
             "k" "Math" 3 initial
             (ok_response (JObj {[ "candidates" := JArr [] ]}))
             {[ "candidates" := JArr [] ]} eq_refl eq_refl eq_refl).
  - reflexivity.
  - right. left. reflexivity.
Defined.

(** X19.  Of a successful response the Gemini adapter reads the text of the
    first part of the first candidate and nothing else: further candidates,
    further parts and other properties of the response do not change its
    result, which is decided by the parse of that text once cleaned. *)
Theorem gemini_reads_first_candidate (w : world) (key topic : string)
    (count : Z) (s : state) (r : response) (d c ct p : gmap string json)
    (cs ps : list json) (text : string) :
  net w (length (fetches s)) (GeminiGenerateContent key) = Resolves r ->
  ok r = true -> body r = Some (JObj d) ->
  d !! "candidates" = Some (JArr (JObj c :: cs)) ->
  c !! "content" = Some (JObj ct) ->
  ct !! "parts" = Some (JArr (JObj p :: ps)) ->
  p !! "text" = Some (JStr text) ->
  generateQuizWithGemini w key topic count s
  = (gemini_result w topic text, record_fetch (GeminiGenerateContent key) s).
Proof. apply gemini_envelope. Qed.

Lemma gemini_reads_first_candidate_witness :
  let part t : json := JObj {[ "text" := JStr t ]} in
  let candidate t u : json :=
    JObj (<["finishReason" := JStr "STOP"]>
         {[ "content" := JObj (<["role" := JStr "model"]>
                              {[ "parts" := JArr [part t; part u] ]}) ]}) in
  fst (generateQuizWithGemini
         (always (Resolves (ok_response
            (JObj (<["modelVersion" := JStr "gemini-2.0-flash"]>
                  {[ "candidates" :=
                       JArr [candidate a1_text "x"; candidate "y" "z"] ]})))))
         "k" "Math" 3 initial)
  = Val (JObj (<["generated_at" := JStr "2025-01-01T00:00:00.000Z"]>
              (<["source" := JStr "AI analysis of Math"]> {[ "a" := JInt 1 ]}))).
Proof.
  intros part candidate.
  erewrite (gemini_reads_first_candidate (always _) "k" "Math" 3 initial);
    [ | reflexivity | reflexivity | reflexivity
      | vm_compute; reflexivity | vm_compute; reflexivity
      | vm_compute; reflexivity | vm_compute; reflexivity ].
  vm_compute. reflexivity.
Defined.

(** X20.  When the cleaned text of Gemini parses to an object, the adapter
    returns that object with [source] and [generated_at] set by the adapter:
    a [source] or [generated_at] of the provider's own is overwritten, and
    every other property is returned as the provider gave it. *)
Theorem gemini_sets_metadata (w : world) (key topic : string) (count : Z)
    (s : state) (text : string) (o : gmap string json) :
  (exists r, net w (length (fetches s)) (GeminiGenerateContent key) = Resolves r
             /\ ok r = true /\ body r = Some (gemini_body text)) ->
  JSON_parse (cleanText text) = ParseOk (JObj o) ->
  exists o',
    fst (generateQuizWithGemini w key topic count s) = Val (JObj o') /\
    o' !! "source" = Some (JStr ("AI analysis of " +:+ topic)) /\
    o' !! "generated_at" = Some (JStr (now w)) /\
    (forall k, k <> "source" -> k <> "generated_at" -> o' !! k = o !! k) /\
    dom o' = dom o ∪ {[ "source"; "generated_at" ]}.
Proof.
  intros (r & Hnet & Hok & Hbody) Hparse.
  rewrite (gemini_outcome w key topic count s r text Hnet Hok Hbody).
  unfold gemini_result. rewrite Hparse.
  eexists. split; [reflexivity|].
  split; [rewrite lookup_insert_ne by done; apply lookup_insert_eq|].
  split; [apply lookup_insert_eq|].
  split.
  - intros k K1 K2. rewrite !lookup_insert_ne by congruence. reflexivity.
  - rewrite !dom_insert_L. apply set_eq. intros k.
    rewrite !elem_of_union, !elem_of_singleton. tauto.
Qed.

Lemma gemini_sets_metadata_witness :
  exists o',
    fst (generateQuizWithGemini (gemini_says disguised_quiz_text)
           "k" "Math" 3 initial) = Val (JObj o') /\
    o' !! "source" = Some (JStr "AI analysis of Math") /\
    o' !! "title" = Some (JStr "T").
Proof.
  destruct (gemini_sets_metadata (gemini_says disguised_quiz_text)
              "k" "Math" 3 initial disguised_quiz_text
              (<["title" := JStr "T"]>
                 {[ "source" := JStr "Fallback quiz for Math" ]}))
    as (o' & E & S & _ & K & _).
  - eexists. repeat split; reflexivity.
  - vm_compute. reflexivity.
  - exists o'. split; [exact E|]. split; [exact S|].
    rewrite K by discriminate. reflexivity.
Defined.

(** X21.  The Hugging Face adapter throws nothing but an [Error] whose
    message begins with [Hugging Face API failed: ]: a rejected fetch gives
    the engine's message after that prefix, and a response with a status
    outside 200-299 gives [Hugging Face API error: ] and the status. *)
Theorem hugging_face_failures_wrapped (w : world) (topic : string) (count : Z)
    (s : state) :
  (forall e, fst (generateQuizWithHuggingFace w topic count s) = Exc e ->
     exists e0, e = Error ("Hugging Face API failed: " +:+ message w e0)) /\
  match net w (length (fetches s)) HuggingFaceInference with
  | Rejects =>
      fst (generateQuizWithHuggingFace w topic count s)
      = Exc (Error ("Hugging Face API failed: "
                    +:+ engine_message w FetchFailed))
  | Resolves r =>
      ok r = false ->
      fst (generateQuizWithHuggingFace w topic count s)
      = Exc (Error ("Hugging Face API failed: Hugging Face API error: "
                    +:+ string_of_Z (status r)))
  end.
Proof.
  split; [intros e; apply hugging_face_throws_wrapped|].
  destruct (net w (length (fetches s)) HuggingFaceInference) as [|r] eqn:F.
  - rewrite hugging_face_rejected by exact F. reflexivity.
  - intros Hok. rewrite (hugging_face_not_ok _ _ _ _ r F Hok). reflexivity.
Qed.

Lemma hugging_face_failures_wrapped_witness :
  fst (generateQuizWithHuggingFace
         (always (Resolves {| status := 401; statusText := "Unauthorized";
                              body := None |}))
         "Math" 3 initial)
  = Exc (Error "Hugging Face API failed: Hugging Face API error: 401").
Proof.
  pose proof (hugging_face_failures_wrapped
                (always (Resolves {| status := 401; statusText := "Unauthorized";
                                     body := None |}))
                "Math" 3 initial) as (_ & H).
  exact (H eq_refl).
Defined.

(** X22.  When Hugging Face answers without a generated text (an empty
    array, an element without [generated_text], an empty text), the adapter
    searches its own prompt instead, and the only braces of the prompt are
    those of the topic: for a topic without a brace span the adapter returns
    the templated quiz of [createStructuredQuiz], and for a topic with one
    it returns what that span of the topic parses to, or throws when it does
    not parse. *)
Theorem hugging_face_without_text_reads_topic (w : world) (topic : string)
    (count : Z) (s : state) (r : response) (data : json) :
  net w (length (fetches s)) HuggingFaceInference = Resolves r ->
  ok r = true -> body r = Some data -> data <> JNull ->
  truthy (get_optional (own_property data Index0) (Named "generated_text"))
  = false ->
  fst (generateQuizWithHuggingFace w topic count s)
  = match match_braces topic with
    | Some span =>
        match JSON_parse span with
        | ParseOk v => Val v
        | _ => Exc (Error ("Hugging Face API failed: "
                           +:+ engine_message w JsonSyntax))
        end
    | None =>
        Val (json_of_quiz (createStructuredQuiz w topic count
                             (huggingFacePrompt topic count)))
    end.
Proof.
  intros Hnet Hok Hbody Hdata Hfalsy.
  rewrite (hugging_face_without_text w topic count s r data
             Hnet Hok Hbody Hdata Hfalsy).
  unfold hugging_face_result. rewrite prompt_no_braces. reflexivity.
Qed.

Lemma hugging_face_without_text_reads_topic_witness :
  fst (generateQuizWithHuggingFace
         (always (Resolves (ok_response (JArr [])))) "Math" 2 initial)
  = Val (json_of_quiz
           (createStructuredQuiz offline "Math" 2 (huggingFacePrompt "Math" 2)))
  /\
  fst (generateQuizWithHuggingFace
         (always (Resolves (ok_response (JArr [])))) bare_quiz_text 2 initial)
  = Val bare_quiz.
Proof.
  split.
  - rewrite (hugging_face_without_text_reads_topic
               (always (Resolves (ok_response (JArr [])))) "Math" 2 initial
               (ok_response (JArr [])) (JArr [])
               eq_refl eq_refl eq_refl ltac:(discriminate) eq_refl).
    vm_compute. reflexivity.
  - rewrite (hugging_face_without_text_reads_topic
               (always (Resolves (ok_response (JArr [])))) bare_quiz_text 2
               initial (ok_response (JArr [])) (JArr [])
               eq_refl eq_refl eq_refl ltac:(discriminate) eq_refl).
    vm_compute. reflexivity.
Defined.

(** X23.  For a count of at least 1 the quiz of [createStructuredQuiz] is
    well formed: a non-empty title, as many questions as [total_questions]
    says, each with a non-empty text and explanation, a difficulty among
    easy, medium and hard, and either 4 options with the answer among them
    or no options and the answer [True]; so is its JSON form, which also
    carries [source] and [generated_at]. *)
Theorem structured_quiz_well_formed (w : world) (topic content : string)
    (count : Z) :
  1 <= count ->
  schema_quiz (json_of_quiz (createStructuredQuiz w topic count content)) = true.
Proof.
  intros H. unfold schema_quiz, json_of_quiz.
  destruct (quiz_props_lookup (createStructuredQuiz w topic count content))
    as (-> & -> & -> & -> & ->).
  cbn [title total_questions questions source generated_at createStructuredQuiz
       JInt is_string andb].
  rewrite !length_map, loop_indices_length.
  repeat (apply andb_true_intro; split); try reflexivity.
  - destruct topic; reflexivity.
  - apply Nat.leb_le. lia.
  - rewrite forallb_forall. intros q Hq.
    apply in_map_iff in Hq as (x & <- & Hx).
    apply in_map_iff in Hx as (i & <- & _).
    apply structured_question_schema.
  - unfold number_is. simpl. apply Z.eqb_eq. lia.
Qed.

Lemma structured_quiz_well_formed_witness :
  schema_quiz (json_of_quiz (createStructuredQuiz offline "Math" 3 "text"))
  = true.
Proof. apply (structured_quiz_well_formed offline "Math" "text" 3). lia. Defined.

(** X24.  Whatever they return, the Gemini and the Hugging Face adapter each
    make exactly one fetch, to their own endpoint, and write nothing to the
    console or to the response; the OpenAI placeholder fails without
    touching anything.  No adapter retries. *)
Theorem adapters_fetch_once (w : world) (key topic : string) (count : Z)
    (s : state) :
  snd (generateQuizWithGemini w key topic count s)
  = record_fetch (GeminiGenerateContent key) s /\
  snd (generateQuizWithHuggingFace w topic count s)
  = record_fetch HuggingFaceInference s /\
  generateQuizWithOpenAI topic count s
  = (Exc (Error "OpenAI API not configured"), s).
Proof.
  split; [apply gemini_frame|]. split; [apply hugging_face_frame | reflexivity].
Qed.
